(** * lilboss: the LLM response pipeline, shallowly embedded

    The Python sources modelled here are
    - [utils/validators.py]       (error classifier, rate gate, diagnosis
                                   check, input validators),
    - [utils/context_manager.py]  (context accumulator, summary, report),
    - [utils/gemini_handler.py]   (truncation-tolerant parser, retry loops),
    - [utils/medical_record_generator.py] (record generation retry loops),
    - [streamlit_app.py]          (debounce gate, context rendering,
                                   consultation history, ranking colours).

    Python [str] values are sequences of Unicode code points, Python [int]s
    are [Z], Python [float]s are binary64 floats read through their IEEE
    decoding, instants are microseconds on the [datetime] time line, and
    the library calls the code relies on ([str.lower], [json.loads], the
    remote model, the wall clock) are section variables. *)

From Stdlib Require Import ZArith NArith List String Ascii Lia PrimFloat.
From Stdlib Require Import DecimalString Permutation.
From Stdlib Require SpecFloat FloatOps FloatAxioms.
From stdpp Require Import list.

Set Warnings "-register-all".
Open Scope Z_scope.

(** ** Python strings *)

Definition char := N.
Definition pystr := list char.

(** Source literals are written as UTF-8 text and decoded to code points. *)
Fixpoint utf8_decode (bs : list N) : pystr :=
  match bs with
  | [] => []
  | b :: r =>
      if (b <? 128)%N then b :: utf8_decode r
      else if (b <? 224)%N then
        match r with
        | b1 :: r' => ((b - 192) * 64 + (b1 - 128))%N :: utf8_decode r'
        | _ => []
        end
      else if (b <? 240)%N then
        match r with
        | b1 :: b2 :: r' =>
            ((b - 224) * 4096 + (b1 - 128) * 64 + (b2 - 128))%N :: utf8_decode r'
        | _ => []
        end
      else
        match r with
        | b1 :: b2 :: b3 :: r' =>
            ((b - 240) * 262144 + (b1 - 128) * 4096 + (b2 - 128) * 64
             + (b3 - 128))%N :: utf8_decode r'
        | _ => []
        end
  end.

Definition py (s : string) : pystr :=
  utf8_decode (map N_of_ascii (list_ascii_of_string s)).

(** JSON texts are written with an apostrophe where the text has a double
    quote. *)
Definition pyq (s : string) : pystr :=
  map (fun c => if (c =? 39)%N then 34%N else c) (py s).

(** [str.isspace] on one code point, the set [str.strip()] removes. *)
Definition isspace (c : char) : bool :=
  ((9 <=? c) && (c <=? 13) || (28 <=? c) && (c <=? 32)
   || (c =? 133) || (c =? 160) || (c =? 5760)
   || (8192 <=? c) && (c <=? 8202)
   || (c =? 8232) || (c =? 8233) || (c =? 8239) || (c =? 8287)
   || (c =? 12288))%N.

Fixpoint lstrip_by (f : char -> bool) (s : pystr) : pystr :=
  match s with
  | [] => []
  | c :: r => if f c then lstrip_by f r else s
  end.

Definition rstrip_by (f : char -> bool) (s : pystr) : pystr :=
  rev (lstrip_by f (rev s)).

(** [s.strip()] *)
Definition strip (s : pystr) : pystr := rstrip_by isspace (lstrip_by isspace s).

Definition char_in (cs : pystr) (c : char) : bool :=
  existsb (N.eqb c) cs.

(** [s.rstrip(chars)] *)
Definition rstrip (chars s : pystr) : pystr := rstrip_by (char_in chars) s.

(** [s.startswith(p)] *)
Fixpoint startswith (p s : pystr) : bool :=
  match p, s with
  | [], _ => true
  | _ :: _, [] => false
  | a :: p', b :: s' => (a =? b)%N && startswith p' s'
  end.

(** [s.endswith(p)] *)
Definition endswith (p s : pystr) : bool := startswith (rev p) (rev s).

(** [sub in s] *)
Fixpoint contains (sub s : pystr) : bool :=
  startswith sub s ||
  match s with
  | [] => false
  | _ :: s' => contains sub s'
  end.

(** [s.count(c)] for a one-character [c] *)
Fixpoint count (c : char) (s : pystr) : nat :=
  match s with
  | [] => O
  | x :: r => if (x =? c)%N then S (count c r) else count c r
  end.

(** [a == b] on strings *)
Fixpoint str_eqb (a b : pystr) : bool :=
  match a, b with
  | [], [] => true
  | x :: a', y :: b' => (x =? y)%N && str_eqb a' b'
  | _, _ => false
  end.

Definition nl : pystr := [10%N].

Definition lbrace : char := 123%N.
Definition rbrace : char := 125%N.
Definition lbracket : char := 91%N.
Definition rbracket : char := 93%N.

(** [not s]: the empty string is false. *)
Definition str_not (s : pystr) : bool :=
  match s with
  | [] => true
  | _ :: _ => false
  end.

(** [sep.join(parts)] *)
Fixpoint join (sep : pystr) (parts : list pystr) : pystr :=
  match parts with
  | [] => []
  | [p] => p
  | p :: rest => p ++ sep ++ join sep rest
  end.

(** [s * n] *)
Definition str_mul (s : pystr) (n : nat) : pystr := concat (replicate n s).

(** [str(n)] for an [int] *)
Definition str_of_int (n : Z) : pystr :=
  py (NilEmpty.string_of_int (Z.to_int n)).

(** ASCII-only lowering and raising, the common case of [str.lower] and
    [str.upper]; used where a concrete text is evaluated. *)
Definition ascii_lower (s : pystr) : pystr :=
  map (fun c => if ((65 <=? c) && (c <=? 90))%N then (c + 32)%N else c) s.

Definition ascii_upper (s : pystr) : pystr :=
  map (fun c => if ((97 <=? c) && (c <=? 122))%N then (c - 32)%N else c) s.

(** ** Exceptions *)

Inductive exn : Type :=
| RemoteError (msg : pystr)
| ValueError (msg : pystr)
| TypeError (msg : pystr)
| AttributeError (msg : pystr).

(** [str(e)] *)
Definition exn_str (e : exn) : pystr :=
  match e with
  | RemoteError m | ValueError m | TypeError m | AttributeError m => m
  end.

(** A computation either returns or raises. *)
Inductive outcome (A : Type) : Type :=
| Returned (a : A)
| Raised (e : exn).
Arguments Returned {A} a.
Arguments Raised {A} e.

(** ** JSON values, as [json.loads] builds them *)

Inductive json : Type :=
| JNull
| JBool (b : bool)
| JInt (n : Z)
| JFloat (f : float)
| JStr (s : pystr)
| JArr (items : list json)
| JObj (fields : list (pystr * json)).

(** Truth value of a Python object in an [if]. *)
Definition truthy (v : json) : bool :=
  match v with
  | JNull => false
  | JBool b => b
  | JInt n => negb (n =? 0)
  | JFloat f => negb (PrimFloat.eqb f 0%float)
  | JStr s => match s with [] => false | _ => true end
  | JArr l => match l with [] => false | _ => true end
  | JObj l => match l with [] => false | _ => true end
  end.

(** [d.get(k)]; a [dict] holds each key once, fields are in insertion
    order. *)
Fixpoint dict_get (k : pystr) (fields : list (pystr * json)) : option json :=
  match fields with
  | [] => None
  | (k', v) :: r => if str_eqb k k' then Some v else dict_get k r
  end.

(** [d[k] = v] *)
Fixpoint dict_set (k : pystr) (v : json) (fields : list (pystr * json))
  : list (pystr * json) :=
  match fields with
  | [] => [(k, v)]
  | (k', v') :: r =>
      if str_eqb k k' then (k', v) :: r else (k', v') :: dict_set k v r
  end.

Definition is_str (k : pystr) (v : json) : bool :=
  match v with
  | JStr s => str_eqb k s
  | _ => false
  end.

(** ** Session state *)

(** [st.session_state.last_api_call]: the key may be missing, hold [None],
    or hold a [datetime] (microseconds). *)
Inductive slot : Type :=
| KeyMissing
| PyNone
| Instant (t : Z).

Record entry : Type := mk_entry {
  entry_timestamp : pystr;
  tipo : pystr;
  conteudo : pystr
}.

Record context : Type := mk_context {
  timestamp : pystr;
  especialidade : pystr;
  entries : list entry
}.

Record session_state : Type := mk_session {
  last_api_call : slot;
  medical_context : context
}.

Definition set_last_api_call (v : slot) (st : session_state) : session_state :=
  {| last_api_call := v; medical_context := medical_context st |}.

Definition set_medical_context (c : context) (st : session_state)
  : session_state :=
  {| last_api_call := last_api_call st; medical_context := c |}.

(** What a pipeline run does to the outside world, in order. *)
Inductive event : Type :=
| CallRemote (attempt : Z)
| SetLastCall (t : Z)
| Sleep (secs : Z).

Record world : Type := mk_world {
  session : session_state;
  trace : list event
}.

(** What [generate_content(prompt)] does on one attempt: raise, or return a
    response whose text may be missing ([not response or not
    response.text]). *)
Inductive reply : Type :=
| Raises (e : exn)
| Responds (text : option pystr).

(** ** utils/validators.py *)

Section Validators.

(** [str.lower], Python's full Unicode lowering. *)
Variable str_lower : pystr -> pystr.

(** [get_friendly_error_message(error)] *)
Definition get_friendly_error_message (error : exn) : pystr :=
  let error_str := str_lower (exn_str error) in
  if contains (py "api_key_invalid") error_str
     || contains (py "invalid api key") error_str then
    py "❌ API key inválida. Verifique sua configuração em .streamlit/secrets.toml"
  else if contains (py "quota") error_str
          || contains (py "limit exceeded") error_str then
    py "⏱️ Limite de uso da API excedido. Aguarde alguns minutos ou use outra API key."
  else if contains (py "rate limit") error_str then
    py "🚦 Muitas requisições em pouco tempo. Aguarde alguns segundos e tente novamente."
  else if contains (py "timeout") error_str then
    py "⌛ Tempo de resposta excedido. Tente novamente."
  else if contains (py "connection") error_str
          || contains (py "network") error_str then
    py "🌐 Erro de conexão com a API. Verifique sua internet e tente novamente."
  else if contains (py "permission") error_str
          || contains (py "forbidden") error_str then
    py "🔒 Permissão negada. Verifique se a API Gemini está habilitada no seu projeto."
  else if contains (py "not found") error_str then
    py "🔍 Recurso não encontrado. Verifique se o modelo está disponível."
  else if contains (py "invalid argument") error_str
          || contains (py "invalid request") error_str then
    py "⚠️ Requisição inválida. Verifique os dados fornecidos."
  else
    py "❌ Erro inesperado: " ++ take 100 (exn_str error).

End Validators.

(** The substrings the classifier looks for, in the order it tests them. *)
Definition known_keywords : list pystr :=
  map py [ "api_key_invalid"; "invalid api key"; "quota"; "limit exceeded";
           "rate limit"; "timeout"; "connection"; "network"; "permission";
           "forbidden"; "not found"; "invalid argument";
           "invalid request" ]%string.

Definition micros_per_second : Z := 1000000.

(** [int(td.total_seconds())] for a [timedelta] of [micros] microseconds:
    truncation toward zero of the exact quotient.  [total_seconds()] is
    the double nearest to that quotient, so this is the code's number as
    long as the difference is at most [2 ^ 32] seconds in size (some 136
    years), where the rounding cannot reach the next whole number; the
    statements that read it carry that bound. *)
Definition whole_seconds (micros : Z) : Z := Z.quot micros micros_per_second.

(** [check_rate_limit_status()], reading the clock as [now].  A
    [timedelta] is a whole number of microseconds; the test
    [total_seconds() < 3] on its float quotient is decided by that number
    for every difference, the quotient being correctly rounded and 3
    being far from its neighbours.  The seconds announced are exact within
    the bound of [whole_seconds]. *)
Definition check_rate_limit_status (now : Z) (st : session_state)
  : (bool * option pystr) * session_state :=
  match last_api_call st with
  | Instant last =>
      let time_since_last := now - last in
      if time_since_last <? 3 * micros_per_second then
        let remaining := 3 - whole_seconds time_since_last in
        ((false,
          Some (py "⏱️ Aguarde " ++ str_of_int remaining
                ++ py " segundo(s) antes da próxima análise (rate limiting)")),
         st)
      else ((true, None), st)
  | KeyMissing | PyNone => ((true, None), st)
  end.

(** [prob < 0 or prob > 100] for a numeric [prob] ([int], [bool] or
    [float]); [None] when [prob] is not numeric. *)
Definition out_of_range (prob : json) : option bool :=
  match prob with
  | JInt n => Some ((n <? 0) || (100 <? n))
  | JBool b => Some false
  | JFloat f => Some (PrimFloat.ltb f 0%float || PrimFloat.ltb 100%float f)
  | _ => None
  end.

Fixpoint validate_diagnosticos_loop (idx : Z) (l : list json)
  : bool * option pystr :=
  match l with
  | [] => (true, None)
  | diag :: rest =>
      let n := str_of_int (idx + 1) in
      match diag with
      | JObj fields =>
          match dict_get (py "nome") fields with
          | None =>
              (false, Some (py "Diagnóstico " ++ n ++ py " não tem campo 'nome'"))
          | Some _ =>
              match dict_get (py "probabilidade") fields with
              | None =>
                  (false, Some (py "Diagnóstico " ++ n
                                ++ py " não tem campo 'probabilidade'"))
              | Some prob =>
                  match out_of_range prob with
                  | None =>
                      (false, Some (py "Probabilidade do diagnóstico " ++ n
                                    ++ py " deve ser numérica"))
                  | Some true =>
                      (false, Some (py "Probabilidade do diagnóstico " ++ n
                                    ++ py " deve estar entre 0 e 100"))
                  | Some false => validate_diagnosticos_loop (idx + 1) rest
                  end
              end
          end
      | _ =>
          (false, Some (py "Diagnóstico " ++ n ++ py " não é um dicionário válido"))
      end
  end.

(** [validate_diagnosticos(diagnosticos)] *)
Definition validate_diagnosticos (diagnosticos : json) : bool * option pystr :=
  if negb (truthy diagnosticos) then
    (false, Some (py "Nenhum diagnóstico fornecido"))
  else
    match diagnosticos with
    | JArr l => validate_diagnosticos_loop 0 l
    | _ => (false, Some (py "Diagnósticos devem ser uma lista"))
    end.

(** ** streamlit_app.py: debounce *)

(** [can_make_api_call(min_interval_seconds)], reading the clock as [now],
    for a whole number of seconds; attribute access on a missing key
    raises.  The test [total_seconds() >= min_interval_seconds] compares
    the double nearest to the quotient with the integer; decided on the
    microsecond count it is the code's answer for every clock reading as
    long as the interval is at most [2 ^ 32] seconds in size (the default
    is 3), a microsecond being wider than the rounding there; the
    statements about other intervals carry that bound. *)
Definition can_make_api_call (min_interval_seconds : Z) (now : Z)
    (st : session_state) : outcome bool * session_state :=
  match last_api_call st with
  | KeyMissing => (Raised (AttributeError (py "last_api_call")), st)
  | PyNone => (Returned true, st)
  | Instant last =>
      let time_since_last_call := now - last in
      (Returned (min_interval_seconds * micros_per_second
                 <=? time_since_last_call), st)
  end.

(** ** utils/context_manager.py *)

Section ContextManager.

(** [str.upper]. *)
Variable str_upper : pystr -> pystr.
(** [datetime.fromisoformat(s).strftime("%d/%m/%Y %H:%M:%S")], [None]
    when it raises. *)
Variable strftime_iso : pystr -> option pystr.
(** [json.dumps(context, indent=2, ensure_ascii=False)]. *)
Variable json_dumps : context -> pystr.

(** [_create_empty_context()], at the ISO instant [now_iso]. *)
Definition _create_empty_context (now_iso : pystr) : context :=
  {| timestamp := now_iso;
     especialidade := py "Clínica Médica";
     entries := [] |}.

(** [add_information(texto, tipo)], at the ISO instant [now_iso]. *)
Definition add_information (texto tipo now_iso : pystr) (st : session_state)
  : session_state :=
  if str_not texto || str_not (strip texto) then st
  else
    let e := {| entry_timestamp := now_iso;
                tipo := tipo;
                conteudo := strip texto |} in
    let c := medical_context st in
    set_medical_context
      {| timestamp := timestamp c;
         especialidade := especialidade c;
         entries := entries c ++ [e] |} st.

(** [set_especialidade(especialidade)] *)
Definition set_especialidade (v : pystr) (st : session_state)
  : session_state :=
  let c := medical_context st in
  set_medical_context
    {| timestamp := timestamp c; especialidade := v; entries := entries c |}
    st.

(** [get_entries()] *)
Definition get_entries (st : session_state) : list entry :=
  entries (medical_context st).

(** [clear_context()] *)
Definition clear_context (now_iso : pystr) (st : session_state)
  : session_state :=
  set_medical_context (_create_empty_context now_iso) st.

(** [_format_timestamp(timestamp_str)] *)
Definition _format_timestamp (timestamp_str : pystr) : pystr :=
  match strftime_iso timestamp_str with
  | Some s => s
  | None => timestamp_str
  end.

Fixpoint entry_lines (idx : Z) (es : list entry) : list pystr :=
  match es with
  | [] => []
  | e :: rest =>
      [ nl ++ py "[" ++ str_of_int idx ++ py "] " ++ str_upper (tipo e);
        py "Timestamp: " ++ _format_timestamp (entry_timestamp e);
        py "Conteúdo: " ++ conteudo e;
        str_mul (py "-") 60 ]
      ++ entry_lines (idx + 1) rest
  end.

(** [get_full_context(format_type)] *)
Definition get_full_context (format_type : pystr) (st : session_state)
  : pystr :=
  let c := medical_context st in
  if str_eqb format_type (py "json") then json_dumps c
  else
    let formatted_text :=
      [ str_mul (py "=") 60;
        py "CONTEXTO DA CONSULTA MÉDICA";
        str_mul (py "=") 60;
        nl ++ py "Especialidade: " ++ especialidade c;
        py "Iniciado em: " ++ _format_timestamp (timestamp c);
        py "Total de entradas: "
          ++ str_of_int (Z.of_nat (length (entries c)));
        nl ++ str_mul (py "-") 60 ]
      ++ match entries c with
         | [] => [ nl ++ py "Nenhuma entrada registrada ainda." ]
         | _ :: _ =>
             [ nl ++ py "HISTÓRICO DE ENTRADAS:" ++ nl ]
             ++ entry_lines 1 (entries c)
         end in
    join nl formatted_text.

End ContextManager.

(** The context text [process_chat_input] sends to the model: the entries'
    contents joined by a blank line ([dados_consulta]). *)
Definition render_full_text (st : session_state) : pystr :=
  let all_entries := get_entries st in
  join (nl ++ nl) (map conteudo all_entries).

(** ** utils/gemini_handler.py: the truncation-tolerant parser *)

(** The fence stripping at the head of [_parse_json_response]. *)
Definition clean_text_of (response_text : pystr) : pystr :=
  let clean_text := strip response_text in
  let clean_text :=
    if startswith (py "```json") clean_text then drop 7 clean_text
    else if startswith (py "```") clean_text then drop 3 clean_text
    else clean_text in
  let clean_text :=
    if endswith (py "```") clean_text
    then take (length clean_text - 3)%nat clean_text
    else clean_text in
  strip clean_text.

(** ["Unterminated" in error_msg or "Expecting" in error_msg] *)
Definition truncation_signature (error_msg : pystr) : bool :=
  contains (py "Unterminated") error_msg || contains (py "Expecting") error_msg.

Definition diagnosticos_marker : pystr := pyq "'diagnosticos': [".

Definition closing_brace : pystr := nl ++ py "}".
Definition closing_bracket : pystr := nl ++ py "]".

(** The string surgery of the recovery branch: [rstrip], the four counts,
    the two [for _ in range(...)] loops (an empty range when the
    difference is not positive). *)
Definition trailing_chars : pystr := py "," ++ nl ++ py " ".

Definition complete_json (clean_text : pystr) : pystr :=
  let clean_text := rstrip trailing_chars clean_text in
  let open_braces := count lbrace clean_text in
  let close_braces := count rbrace clean_text in
  let open_brackets := count lbracket clean_text in
  let close_brackets := count rbracket clean_text in
  let clean_text :=
    clean_text ++ str_mul closing_brace (open_braces - close_braces)%nat in
  clean_text ++ str_mul closing_bracket (open_brackets - close_brackets)%nat.

(** [len(v)]; [None] when it raises [TypeError], the value having no
    length ([None], a [bool], an [int], a [float]). *)
Definition py_len (v : json) : option Z :=
  match v with
  | JStr s => Some (Z.of_nat (length s))
  | JArr l => Some (Z.of_nat (length l))
  | JObj fields => Some (Z.of_nat (length fields))
  | _ => None
  end.

(** The end of the recovery branch:
    [if 'diagnosticos' in partial_result and partial_result['diagnosticos']:]
    then the success notice, which evaluates
    [len(partial_result['diagnosticos'])], then [return partial_result].
    On a value that is not a [dict] the test is false or raises, and on a
    true [diagnosticos] without a length the notice raises; the bare
    [except] swallows either and the parser goes on to return [None]. *)
Definition recovered (partial_result : json) : json :=
  match partial_result with
  | JObj fields =>
      match dict_get (py "diagnosticos") fields with
      | Some d =>
          if truthy d then
            match py_len d with
            | Some _ => partial_result
            | None => JNull
            end
          else JNull
      | None => JNull
      end
  | _ => JNull
  end.

Section Parser.

(** [json.loads(text)]: the value, or the message of the
    [JSONDecodeError]. *)
Variable json_loads : pystr -> json + pystr.

(** [_parse_json_response(response_text)]; Python's [None] is [JNull]. *)
Definition _parse_json_response (response_text : pystr) : json :=
  let clean_text := clean_text_of response_text in
  match json_loads clean_text with
  | inl v => v
  | inr error_msg =>
      if truncation_signature error_msg then
        if contains diagnosticos_marker clean_text then
          match json_loads (complete_json clean_text) with
          | inl partial_result => recovered partial_result
          | inr _ => JNull
          end
        else JNull
      else JNull
  end.

End Parser.

(** ** The retry loops *)

(** How one iteration of a [for attempt in range(max_retries)] body ends. *)
Inductive control (A : Type) : Type :=
| Return (a : A)
| Continue.
Arguments Return {A} a.
Arguments Continue {A}.

(** [try: body except Exception as e: handler(e)] *)
Definition try_except {A : Type}
    (body : world -> outcome A * world)
    (handler : exn -> world -> outcome A * world) (w : world)
  : outcome A * world :=
  match body w with
  | (Returned a, w') => (Returned a, w')
  | (Raised e, w') => handler e w'
  end.

(** [for attempt in range(...)]: [fuel] iterations are left, [after] is
    what follows the loop. *)
Fixpoint for_range {A : Type}
    (body : Z -> world -> outcome (control A) * world) (after : A)
    (fuel : nat) (attempt : Z) (w : world) : outcome A * world :=
  match fuel with
  | O => (Returned after, w)
  | S fuel' =>
      match body attempt w with
      | (Returned (Return a), w') => (Returned a, w')
      | (Returned Continue, w') => for_range body after fuel' (attempt + 1) w'
      | (Raised e, w') => (Raised e, w')
      end
  end.

Definition record (e : event) (w : world) : world :=
  {| session := session w; trace := trace w ++ [e] |}.

(** [time.sleep(secs)] *)
Definition sleep (secs : Z) (w : world) : world := record (Sleep secs) w.

Definition required_keys : list pystr :=
  map py [ "follow_up_questions"; "suggested_exams";
           "management_suggestions" ]%string.

Definition is_list_at (fields : list (pystr * json)) (k : pystr) : bool :=
  match dict_get k fields with
  | Some (JArr _) => true
  | _ => false
  end.

Definition has_key (fields : list (pystr * json)) (k : pystr) : bool :=
  match dict_get k fields with
  | Some _ => true
  | None => false
  end.

Section Pipeline.

Variable str_lower : pystr -> pystr.
Variable json_loads : pystr -> json + pystr.
(** Messages of the interpreter's own [TypeError]s: [k in v] on a value
    that is no container, and [v[k]] with a string key on a value that is
    no [dict]. *)
Variable not_container_msg : json -> pystr.
Variable bad_index_msg : json -> pystr.
(** The remote model on each attempt of one call. *)
Variable generate_content : Z -> reply.
(** [datetime.now()], as a function of what happened so far. *)
Variable datetime_now : list event -> Z.

(** [response = model.generate_content(prompt)] *)
Definition call_remote (attempt : Z) (w : world) : outcome (option pystr) * world :=
  let w := record (CallRemote attempt) w in
  match generate_content attempt with
  | Raises e => (Raised e, w)
  | Responds text => (Returned text, w)
  end.

(** [st.session_state.last_api_call = datetime.now()] *)
Definition stamp (w : world) : world :=
  let t := datetime_now (trace w) in
  {| session := set_last_api_call (Instant t) (session w);
     trace := trace w ++ [SetLastCall t] |}.

(** ["diagnosticos" in result and isinstance(result["diagnosticos"], list)] *)
Definition has_diagnosticos_list (result : json) : outcome bool :=
  match result with
  | JObj fields => Returned (is_list_at fields (py "diagnosticos"))
  | JArr l =>
      if existsb (is_str (py "diagnosticos")) l
      then Raised (TypeError (bad_index_msg result))
      else Returned false
  | JStr s =>
      if contains (py "diagnosticos") s
      then Raised (TypeError (bad_index_msg result))
      else Returned false
  | _ => Raised (TypeError (not_container_msg result))
  end.

(** [result["diagnosticos"] = result["diagnosticos"][:5]] *)
Definition limit_diagnosticos (result : json) : json :=
  match result with
  | JObj fields =>
      match dict_get (py "diagnosticos") fields with
      | Some (JArr l) =>
          JObj (dict_set (py "diagnosticos") (JArr (take 5 l)) fields)
      | _ => result
      end
  | _ => result
  end.

Definition analysis : Type := option json * option pystr.

Definition parse_failure_message : pystr :=
  py "Falha ao parsear resposta após múltiplas tentativas".

(** The [try] block of [analyze_case]'s loop. *)
Definition analyze_try (max_retries attempt : Z) (w : world)
  : outcome (control analysis) * world :=
  match call_remote attempt w with
  | (Raised e, w) => (Raised e, w)
  | (Returned text, w) =>
      let w := stamp w in
      match text with
      | None | Some [] =>
          (Raised (ValueError (py "Resposta vazia do modelo")), w)
      | Some text =>
          let result := _parse_json_response json_loads text in
          if truthy result then
            match has_diagnosticos_list result with
            | Raised e => (Raised e, w)
            | Returned true =>
                (Returned (Return (Some (limit_diagnosticos result), None)), w)
            | Returned false =>
                (Raised (ValueError (py "Estrutura JSON inválida na resposta")),
                 w)
            end
          else if attempt <? max_retries - 1 then
            (Returned Continue, sleep (2 ^ attempt) w)
          else
            (Returned (Return (None, Some parse_failure_message)), w)
      end
  end.

(** The [except Exception as e] block of [analyze_case]'s loop. *)
Definition analyze_except (max_retries attempt : Z) (e : exn) (w : world)
  : outcome (control analysis) * world :=
  let error_msg := get_friendly_error_message str_lower e in
  if attempt <? max_retries - 1 then
    (Returned Continue, sleep (2 ^ attempt) w)
  else
    (Returned (Return (None, Some error_msg)), w).

(** [analyze_case(context, specialty, max_retries)]; [model] tells whether
    [self.model] is set. *)
Definition analyze_case (model : bool) (context specialty : pystr)
    (max_retries : Z) (w : world) : outcome analysis * world :=
  if negb model then
    (Returned (None, Some (py "Modelo Gemini não está configurado corretamente")),
     w)
  else if str_not context || str_not (strip context) then
    (Returned (None, Some (py "Contexto vazio fornecido para análise")), w)
  else
    for_range
      (fun attempt =>
         try_except (analyze_try max_retries attempt)
                    (analyze_except max_retries attempt))
      (None, Some (py "Erro desconhecido durante análise"))
      (Z.to_nat max_retries) 0 w.

(** [_validate_suggestions_structure(data)] *)
Definition _validate_suggestions_structure (data : json) : outcome bool :=
  match data with
  | JObj fields =>
      Returned (forallb (has_key fields) required_keys
                && forallb (is_list_at fields) required_keys)
  | JArr l =>
      if forallb (fun k => existsb (is_str k) l) required_keys
      then Raised (TypeError (bad_index_msg data))
      else Returned false
  | JStr s =>
      if forallb (fun k => contains k s) required_keys
      then Raised (TypeError (bad_index_msg data))
      else Returned false
  | _ => Raised (TypeError (not_container_msg data))
  end.

(** The inner [try] block of [generate_suggestions]'s loop. *)
Definition suggestions_try (max_retries attempt : Z) (w : world)
  : outcome (control (option json)) * world :=
  match call_remote attempt w with
  | (Raised e, w) => (Raised e, w)
  | (Returned text, w) =>
      let w := stamp w in
      match text with
      | None | Some [] => (Returned Continue, w)
      | Some text =>
          let result := _parse_json_response json_loads text in
          match (if truthy result
                 then _validate_suggestions_structure result
                 else Returned false) with
          | Raised e => (Raised e, w)
          | Returned true => (Returned (Return (Some result)), w)
          | Returned false =>
              if attempt <? max_retries - 1
              then (Returned Continue, sleep 1 w)
              else (Returned Continue, w)
          end
      end
  end.

(** The inner [except Exception as e] block of [generate_suggestions]. *)
Definition suggestions_except (max_retries attempt : Z) (e : exn) (w : world)
  : outcome (control (option json)) * world :=
  if attempt <? max_retries - 1
  then (Returned Continue, sleep 1 w)
  else (Returned (Return None), w).

(** [generate_suggestions(context, specialty, diagnosticos, max_retries)];
    [setup] is the model construction and prompt formatting that precede
    the loop inside the outer [try]. *)
Definition generate_suggestions (setup : outcome unit) (max_retries : Z)
    (w : world) : outcome (option json) * world :=
  try_except
    (fun w =>
       match setup with
       | Raised e => (Raised e, w)
       | Returned _ =>
           for_range
             (fun attempt =>
                try_except (suggestions_try max_retries attempt)
                           (suggestions_except max_retries attempt))
             None (Z.to_nat max_retries) 0 w
       end)
    (fun _ w => (Returned None, w)) w.

(** ** utils/medical_record_generator.py *)

Definition medical_record : Type := option pystr * option pystr.

(** The [try] block of [generate_traditional_record]'s loop. *)
Definition record_try (max_retries attempt : Z) (w : world)
  : outcome (control medical_record) * world :=
  match call_remote attempt w with
  | (Raised e, w) => (Raised e, w)
  | (Returned text, w) =>
      let w := stamp w in
      match text with
      | Some (c :: r) => (Returned (Return (Some (strip (c :: r)), None)), w)
      | None | Some [] =>
          if attempt <? max_retries - 1
          then (Returned Continue, sleep 1 w)
          else (Returned (Return (None, Some (py "Resposta vazia do modelo"))),
                w)
      end
  end.

(** The [except Exception as e] block of [generate_traditional_record]. *)
Definition record_except (max_retries attempt : Z) (e : exn) (w : world)
  : outcome (control medical_record) * world :=
  if attempt <? max_retries - 1
  then (Returned Continue, sleep 1 w)
  else (Returned (Return (None, Some (get_friendly_error_message str_lower e))),
        w).

(** [generate_traditional_record(context, diagnosticos, max_retries)].
    [prompt] is the formatting of the diagnoses into the prompt
    ([diagnosticos[:5]], [diag.get(...)], lines 91-94), which follows the
    check of the model and precedes the loop outside any [try]: an
    exception it raises leaves the function. *)
Definition generate_traditional_record (model : bool) (prompt : outcome unit)
    (max_retries : Z) (w : world) : outcome medical_record * world :=
  if negb model then
    (Returned (None, Some (py "Modelo Gemini não configurado")), w)
  else
    match prompt with
    | Raised e => (Raised e, w)
    | Returned _ =>
        for_range
          (fun attempt =>
             try_except (record_try max_retries attempt)
                        (record_except max_retries attempt))
          (None, Some (py "Erro desconhecido"))
          (Z.to_nat max_retries) 0 w
    end.

End Pipeline.

(** ** Concrete readings of the library calls, for evaluating the code *)

(** [json.loads] on the few texts of a table, any other text being answered
    as prose is. *)
Definition loads_table (table : list (pystr * (json + pystr))) (text : pystr)
  : json + pystr :=
  match find (fun row => str_eqb text (fst row)) table with
  | Some row => snd row
  | None => inr (py "Expecting value: line 1 column 1 (char 0)")
  end.

Definition diagnosis_A : json := JObj [ (py "nome", JStr (py "A")) ].

Definition truncated_in_list : pystr := pyq "{'diagnosticos': [{'nome': 'A'},".
Definition truncated_unmarked : pystr := pyq "{'diagnosticos':[{'nome': 'A'}],".
Definition truncated_after_list : pystr :=
  pyq "{'diagnosticos': [{'nome': 'A'}], 'observacoes': 'x',".
Definition over_range_text : pystr :=
  pyq "{'diagnosticos': [{'nome': 'A', 'probabilidade': 150}]}".

Definition six_items_text : pystr := pyq "{'diagnosticos': [1, 2, 3, 4, 5, 6]}".

(** A text cut after a comma whose repair parses to an object with the
    number 5 as [diagnosticos]. *)
Definition truncated_scalar : pystr :=
  pyq "{'diagnosticos': 5, 'k': {'diagnosticos': [1]},".

Definition over_range_value : json :=
  JObj [ (py "diagnosticos",
          JArr [ JObj [ (py "nome", JStr (py "A"));
                        (py "probabilidade", JInt 150) ] ]) ].

(** What CPython's [json.loads] answers on the texts evaluated below. *)
Definition cpython_loads : pystr -> json + pystr :=
  loads_table
    [ (truncated_in_list,
       inr (py "Expecting value: line 1 column 33 (char 32)"));
      (pyq "{'diagnosticos': [{'nome': 'A'}" ++ nl ++ py "}" ++ nl ++ py "]",
       inr (py "Expecting ',' delimiter: line 2 column 1 (char 32)"));
      (pyq "{'diagnosticos': [{'nome': 'A'}" ++ nl ++ py "]" ++ nl ++ py "}",
       inl (JObj [ (py "diagnosticos", JArr [ diagnosis_A ]) ]));
      (truncated_unmarked,
       inr (py "Expecting property name enclosed in double quotes: line 1 column 33 (char 32)"));
      (pyq "{'diagnosticos':[{'nome': 'A'}]" ++ nl ++ py "}",
       inl (JObj [ (py "diagnosticos", JArr [ diagnosis_A ]) ]));
      (truncated_after_list,
       inr (py "Expecting property name enclosed in double quotes: line 1 column 54 (char 53)"));
      (pyq "{'diagnosticos': [{'nome': 'A'}], 'observacoes': 'x'" ++ nl ++ py "}",
       inl (JObj [ (py "diagnosticos", JArr [ diagnosis_A ]);
                   (py "observacoes", JStr (py "x")) ]));
      (over_range_text, inl over_range_value);
      (truncated_scalar,
       inr (py "Expecting property name enclosed in double quotes: line 1 column 48 (char 47)"));
      (pyq "{'diagnosticos': 5, 'k': {'diagnosticos': [1]}" ++ nl ++ py "}",
       inl (JObj [ (py "diagnosticos", JInt 5);
                   (py "k", JObj [ (py "diagnosticos", JArr [ JInt 1 ]) ]) ]));
      (six_items_text,
       inl (JObj [ (py "diagnosticos",
                    JArr [ JInt 1; JInt 2; JInt 3; JInt 4; JInt 5; JInt 6 ]) ])) ].

(** The interpreter's [TypeError] texts, abridged. *)
Definition type_error_text (v : json) : pystr := py "TypeError".

Definition quota_error : exn := RemoteError (py "429 Quota exceeded for model").

(** ** More of utils/validators.py *)

(** [s.split()]: the maximal runs of characters that are not white space,
    left to right; [word] holds the run being read, last character first. *)
Fixpoint split_from (word : pystr) (s : pystr) : list pystr :=
  match s with
  | [] =>
      match word with
      | [] => []
      | _ :: _ => [rev word]
      end
  | c :: r =>
      if isspace c then
        match word with
        | [] => split_from [] r
        | _ :: _ => rev word :: split_from [] r
        end
      else split_from (c :: word) r
  end.

Definition split (s : pystr) : list pystr := split_from [] s.

(** [s[:stop]] *)
Definition slice_to (stop : Z) (s : pystr) : pystr :=
  if 0 <=? stop then take (Z.to_nat stop) s
  else take (length s - Z.to_nat (- stop))%nat s.

(** The class [[\x00-\x08\x0B\x0C\x0E-\x1F\x7F]] of the pattern. *)
Definition is_control (c : char) : bool :=
  ((c <=? 8) || (c =? 11) || (c =? 12) || (14 <=? c) && (c <=? 31)
   || (c =? 127))%N.

(** [sanitize_input(text, max_length)] *)
Definition sanitize_input (text : pystr) (max_length : Z) : pystr :=
  if str_not text then []
  else
    let text := join (py " ") (split text) in
    let text :=
      if max_length <? Z.of_nat (length text) then slice_to max_length text
      else text in
    List.filter (fun c => negb (is_control c)) text.

Definition valid_specialties : list pystr :=
  map py [ "Clínica Médica"; "Cardiologia"; "Pneumologia";
           "Gastroenterologia"; "Neurologia"; "Pediatria";
           "Ginecologia/Obstetrícia"; "Outros" ]%string.

(** [validate_specialty(specialty)] *)
Definition validate_specialty (specialty : pystr) : bool * option pystr :=
  if str_not specialty then (false, Some (py "Especialidade não selecionada"))
  else if negb (existsb (str_eqb specialty) valid_specialties) then
    (false, Some (py "Especialidade '" ++ specialty ++ py "' não é válida"))
  else (true, None).

Definition patient_words : list pystr :=
  map py [ "paciente"; "anos"; "idade"; "sexo"; "masculino"; "feminino" ]%string.

Definition complaint_words : list pystr :=
  map py [ "queixa"; "dor"; "febre"; "sintoma"; "refere"; "relata" ]%string.

Section MoreValidators.

(** [str.isalpha] on one character. *)
Variable isalpha : char -> bool.
Variable str_lower : pystr -> pystr.

(** [validate_context_for_analysis(context, min_chars)]; the test
    [alpha_chars < min_chars / 2] is decided on the doubled count. *)
Definition validate_context_for_analysis (context : pystr) (min_chars : Z)
  : bool * option pystr :=
  if str_not context || str_not (strip context) then
    (false, Some (py "Nenhum dado foi fornecido para análise"))
  else
    let context_clean := strip context in
    if Z.of_nat (length context_clean) <? min_chars then
      (false,
       Some (py "Contexto muito curto (mínimo " ++ str_of_int min_chars
             ++ py " caracteres). Forneça mais informações sobre o caso."))
    else
      let words := split context_clean in
      if Z.of_nat (length words) <? 10 then
        (false,
         Some (py "Forneça mais detalhes sobre o caso clínico (mínimo 10 palavras)."))
      else
        let alpha_chars := Z.of_nat (length (List.filter isalpha context_clean)) in
        if 2 * alpha_chars <? min_chars then
          (false,
           Some (py "O contexto deve conter texto descritivo, não apenas números."))
        else (true, None).

(** [check_minimum_data_for_prontuario(context)] *)
Definition check_minimum_data_for_prontuario (context : pystr)
  : bool * option pystr :=
  if str_not context || (Z.of_nat (length (strip context)) <? 100) then
    (false,
     Some (py "Dados insuficientes para gerar prontuário. Adicione mais informações sobre o caso."))
  else
    let context_lower := str_lower context in
    let has_patient_info :=
      existsb (fun word => contains word context_lower) patient_words in
    let has_complaint :=
      existsb (fun word => contains word context_lower) complaint_words in
    if negb has_patient_info then
      (false,
       Some (py "Adicione informações básicas do paciente (idade, sexo) para gerar o prontuário."))
    else if negb has_complaint then
      (false,
       Some (py "Adicione a queixa principal ou sintomas do paciente para gerar o prontuário."))
    else (true, None).

End MoreValidators.

(** ** More of utils/context_manager.py *)

(** [get_especialidade()] *)
Definition get_especialidade (st : session_state) : pystr :=
  especialidade (medical_context st).

(** [get_entries_by_type(tipo)] *)
Definition get_entries_by_type (t : pystr) (st : session_state) : list entry :=
  List.filter (fun e => str_eqb (tipo e) t) (entries (medical_context st)).

(** [has_entries()] *)
Definition has_entries (st : session_state) : bool :=
  0 <? Z.of_nat (length (entries (medical_context st))).

(** A [dict] from strings to [int]s, in insertion order. *)
Fixpoint count_get (k : pystr) (d : list (pystr * Z)) : option Z :=
  match d with
  | [] => None
  | (k', v) :: r => if str_eqb k k' then Some v else count_get k r
  end.

Fixpoint count_set (k : pystr) (v : Z) (d : list (pystr * Z))
  : list (pystr * Z) :=
  match d with
  | [] => [(k, v)]
  | (k', v') :: r =>
      if str_eqb k k' then (k', v) :: r else (k', v') :: count_set k v r
  end.

(** The loop [tipos_count[tipo] = tipos_count.get(tipo, 0) + 1]. *)
Fixpoint count_tipos (tipos_count : list (pystr * Z)) (es : list entry)
  : list (pystr * Z) :=
  match es with
  | [] => tipos_count
  | e :: rest =>
      let n := match count_get (tipo e) tipos_count with
               | Some n => n
               | None => 0
               end in
      count_tipos (count_set (tipo e) (n + 1) tipos_count) rest
  end.

Record summary : Type := mk_summary {
  summary_especialidade : pystr;
  timestamp_inicio : pystr;
  total_entradas : Z;
  tipos_distribuicao : list (pystr * Z);
  primeira_entrada : option pystr;
  ultima_entrada : option pystr
}.

(** [get_summary()] *)
Definition get_summary (st : session_state) : summary :=
  let context := medical_context st in
  let entries := entries context in
  {| summary_especialidade := especialidade context;
     timestamp_inicio := timestamp context;
     total_entradas := Z.of_nat (length entries);
     tipos_distribuicao := count_tipos [] entries;
     primeira_entrada := option_map entry_timestamp (head entries);
     ultima_entrada := option_map entry_timestamp (last entries) |}.

(** ** More of streamlit_app.py *)

(** [get_specialty_list()] *)
Definition get_specialty_list : list pystr :=
  map py [ "Clínica Médica"; "Cardiologia"; "Pneumologia";
           "Gastroenterologia"; "Neurologia"; "Pediatria";
           "Ginecologia/Obstetrícia"; "Outros" ]%string.

(** ** More of the generators *)

Section MorePipeline.

Variable str_lower : pystr -> pystr.
Variable generate_content : Z -> reply.
Variable datetime_now : list event -> Z.

(** [generate_soap_record(context, diagnosticos, max_retries)] of
    utils/medical_record_generator.py.  [prompt] is the formatting of the
    diagnoses into the prompt ([diagnosticos[:5]], [diag.get(...)]), which
    follows the check of the model, precedes the loop and may raise; the
    loop is, statement for statement, the one of
    [generate_traditional_record]. *)
Definition generate_soap_record (model : bool) (prompt : outcome unit)
    (max_retries : Z) (w : world) : outcome medical_record * world :=
  if negb model then
    (Returned (None, Some (py "Modelo Gemini não configurado")), w)
  else
    match prompt with
    | Raised e => (Raised e, w)
    | Returned _ =>
        for_range
          (fun attempt =>
             try_except
               (record_try generate_content datetime_now max_retries attempt)
               (record_except str_lower max_retries attempt))
          (None, Some (py "Erro desconhecido"))
          (Z.to_nat max_retries) 0 w
    end.

(** [generate_medical_record(context, diagnosticos, format_type)] of
    utils/gemini_handler.py; [prompt] is the formatting of the diagnoses
    into the prompt ([d['nome']], [d['probabilidade']]), which precedes the
    [try] and may raise. *)
Definition generate_medical_record (model : bool) (prompt : outcome unit)
    (w : world) : outcome (option pystr) * world :=
  if negb model then (Returned None, w)
  else
    match prompt with
    | Raised e => (Raised e, w)
    | Returned _ =>
        try_except
          (fun w =>
             match call_remote generate_content 0 w with
             | (Raised e, w) => (Raised e, w)
             | (Returned text, w) =>
                 let w := stamp datetime_now w in
                 match text with
                 | Some (c :: r) => (Returned (Some (strip (c :: r))), w)
                 | None | Some [] => (Returned None, w)
                 end
             end)
          (fun _ w => (Returned None, w)) w
    end.

End MorePipeline.

(** ** More concrete readings *)

(** [str.isalpha] on the letters of ASCII. *)
Definition ascii_isalpha (c : char) : bool :=
  ((65 <=? c) && (c <=? 90) || (97 <=? c) && (c <=? 122))%N.

(** ** More of streamlit_app.py: the consultation history and the ranking *)

(** One saved consultation, the [dict] [save_consultation_to_history]
    builds. *)
Record consultation : Type := mk_consultation {
  consultation_id : Z;
  consultation_timestamp : Z;
  consultation_specialty : pystr;
  context_preview : pystr;
  num_diagnostics : Z;
  top_diagnostic : json
}.

(** The keys of [st.session_state] the history uses.  A missing
    [consultation_history] key is [None]; [diagnosticos] is [None] or the
    list stored after an analysis. *)
Record app_state : Type := mk_app_state {
  consultation_history : option (list consultation);
  diagnosticos : option (list json);
  dados_consulta : pystr;
  session_especialidade : pystr
}.

Definition set_consultation_history (h : list consultation) (st : app_state)
  : app_state :=
  {| consultation_history := Some h;
     diagnosticos := diagnosticos st;
     dados_consulta := dados_consulta st;
     session_especialidade := session_especialidade st |}.

(** [diag['nome']]; [None] when it raises, the item being no [dict] or
    having no such key. *)
Definition item_nome (diag : json) : option json :=
  match diag with
  | JObj fields => dict_get (py "nome") fields
  | _ => None
  end.

(** [history[-10:]] *)
Definition last_ten (history : list consultation) : list consultation :=
  drop (length history - 10) history.

(** [save_consultation_to_history()], the clock reading [now]; the result
    is [None] when an exception leaves the function. *)
Definition save_consultation_to_history (now : Z) (st : app_state)
  : option unit * app_state :=
  let history :=
    match consultation_history st with
    | Some h => h
    | None => []
    end in
  let st := set_consultation_history history st in
  match diagnosticos st with
  | Some (first :: rest) =>
      if str_not (dados_consulta st) then (Some tt, st)
      else
        match item_nome first with
        | None => (None, st)
        | Some nome =>
            let consultation :=
              {| consultation_id := Z.of_nat (length history) + 1;
                 consultation_timestamp := now;
                 consultation_specialty := session_especialidade st;
                 context_preview :=
                   slice_to 100 (dados_consulta st) ++ py "...";
                 num_diagnostics := Z.of_nat (length (first :: rest));
                 top_diagnostic := nome |} in
            if negb (existsb (fun c => consultation_timestamp c =? now) history)
            then
              let history := history ++ [consultation] in
              if 10 <? Z.of_nat (length history)
              then (Some tt, set_consultation_history (last_ten history) st)
              else (Some tt, set_consultation_history history st)
            else (Some tt, st)
        end
  | _ => (Some tt, st)
  end.

(** [get_probability_color(probability)]; [None] when the comparison
    raises, the value being no number. *)
Definition get_probability_color (probability : json) : option pystr :=
  match probability with
  | JInt n =>
      Some (if 70 <=? n then py "#dc3545"
            else if 40 <=? n then py "#ffc107"
            else py "#28a745")
  | JBool _ => Some (py "#28a745")
  | JFloat f =>
      Some (if PrimFloat.leb 70%float f then py "#dc3545"
            else if PrimFloat.leb 40%float f then py "#ffc107"
            else py "#28a745")
  | _ => None
  end.

(** The colour [display_diagnostic_ranking] asks for one diagnosis:
    [get_probability_color(diag.get('probabilidade', 0))]; [None] when it
    raises. *)
Definition ranking_color (diag : json) : option pystr :=
  match diag with
  | JObj fields =>
      get_probability_color
        (match dict_get (py "probabilidade") fields with
         | Some prob => prob
         | None => JInt 0
         end)
  | _ => None
  end.

(** ** Vocabulary of the statements *)

(** A last-call value that is present in the session: [None] or an
    instant. *)
Definition slot_of (last : option Z) : slot :=
  match last with
  | None => PyNone
  | Some t => Instant t
  end.

(** No call was made yet, or at least [secs] seconds passed since. *)
Definition elapsed_at_least (secs now : Z) (last : option Z) : Prop :=
  match last with
  | None => True
  | Some t => secs * micros_per_second <= now - t
  end.

(** The intervals and clock differences on which the gates' float
    arithmetic is exact: at most [2 ^ 32] seconds in size. *)
Definition exact_range (min_interval now : Z) (last : option Z) : Prop :=
  Z.abs min_interval <= 2 ^ 32
  /\ match last with
     | Some t => Z.abs (now - t) <= 2 ^ 32 * micros_per_second
     | None => True
     end.

(** [q] is the whole number of [unit]s in [d], rounded toward zero. *)
Definition truncates_to (unit d q : Z) : Prop :=
  Z.abs q * unit <= Z.abs d < (Z.abs q + 1) * unit /\ 0 <= q * d.

Definition rate_limit_message (remaining : Z) : pystr :=
  py "⏱️ Aguarde " ++ str_of_int remaining
  ++ py " segundo(s) antes da próxima análise (rate limiting)".

Definition generic_prefix : pystr := py "❌ Erro inesperado: ".

Definition blank_line : pystr := nl ++ nl.

(** "Joined with a blank-line separator, in insertion order": the first
    content, then each later one after a blank line, left to right. *)
Definition joined_in_order (contents : list pystr) : pystr :=
  match contents with
  | [] => []
  | first :: rest => fold_left (fun acc c => acc ++ blank_line ++ c) rest first
  end.

Definition empty_session : session_state :=
  {| last_api_call := PyNone;
     medical_context := _create_empty_context (py "2025-01-01T10:00:00") |}.

(** Opening tokens of [s] that have no closing partner, by count. *)
Definition unmatched (opening closing : char) (s : pystr) : nat :=
  (count opening s - count closing s)%nat.

(** A [diagnosticos] value the recovery branch hands back: a string, a
    list or a dictionary that is not empty. *)
Definition recoverable (d : json) : Prop :=
  match d with
  | JStr (_ :: _) | JArr (_ :: _) | JObj (_ :: _) => True
  | _ => False
  end.

(** The repair as the specification words it: the missing closing tokens
    are appended "in bracket-then-brace order". *)
Definition repair_bracket_then_brace (clean_text : pystr) : pystr :=
  let stripped := rstrip trailing_chars clean_text in
  stripped
  ++ str_mul closing_bracket (unmatched lbracket rbracket stripped)
  ++ str_mul closing_brace (unmatched lbrace rbrace stripped).

(** The calls and sleeps of a run, without the timestamp writes. *)
Definition calls_and_sleeps (evs : list event) : list event :=
  List.filter (fun e => match e with SetLastCall _ => false | _ => true end) evs.

(** [k] attempts from [attempt] on, with the sleep of [2 ^ attempt] seconds
    between one attempt and the next, none before the first, none after the
    last. *)
Fixpoint schedule (k : nat) (attempt : Z) : list event :=
  match k with
  | O => []
  | S O => [CallRemote attempt]
  | S k' => CallRemote attempt :: Sleep (2 ^ attempt) :: schedule k' (attempt + 1)
  end.

(** The last-call value after the events [new], from [init]. *)
Definition last_stamp (new : list event) (init : slot) : slot :=
  fold_left (fun s e => match e with SetLastCall t => Instant t | _ => s end)
            new init.

Section Runs.

Variable str_lower : pystr -> pystr.
Variable json_loads : pystr -> json + pystr.
Variable not_container_msg : json -> pystr.
Variable bad_index_msg : json -> pystr.
Variable generate_content : Z -> reply.
Variable datetime_now : list event -> Z.

(** How one attempt of [analyze_case] ends, read off the reply. *)
Inductive verdict : Type :=
| Succeeded (result : json)
| ParseFailed
| Threw (e : exn).

Definition analyze_verdict (attempt : Z) : verdict :=
  match generate_content attempt with
  | Raises e => Threw e
  | Responds None | Responds (Some []) =>
      Threw (ValueError (py "Resposta vazia do modelo"))
  | Responds (Some text) =>
      let result := _parse_json_response json_loads text in
      if truthy result then
        match has_diagnosticos_list not_container_msg bad_index_msg result with
        | Raised e => Threw e
        | Returned true => Succeeded (limit_diagnosticos result)
        | Returned false =>
            Threw (ValueError (py "Estrutura JSON inválida na resposta"))
        end
      else ParseFailed
  end.

Definition failed (v : verdict) : bool :=
  match v with
  | Succeeded _ => false
  | ParseFailed | Threw _ => true
  end.

(** The message of a failed last attempt: the classifier's for an
    exception, the fixed one for an unparseable response. *)
Definition failure_message (v : verdict) : pystr :=
  match v with
  | Threw e => get_friendly_error_message str_lower e
  | ParseFailed | Succeeded _ => parse_failure_message
  end.

(** The world after one attempt: the call, the timestamp write if the
    call returned, the sleep if there was one. *)
Definition after_attempt (attempt : Z) (slept : option Z) (w : world) : world :=
  let w := record (CallRemote attempt) w in
  let w := match generate_content attempt with
           | Responds _ => stamp datetime_now w
           | Raises _ => w
           end in
  match slept with
  | Some secs => sleep secs w
  | None => w
  end.

(** From [w] to [w']: events were only added; every call that returned
    is followed at once by the write of the clock's reading at that
    moment, and nothing else is written; the session's last-call value is
    the last one written, the rest of the session being as before. *)
Definition stamps_every_returned_call (w w' : world) : Prop :=
  exists new,
    trace w' = trace w ++ new
    /\ (forall (i : nat) a text,
          new !! i = Some (CallRemote a) ->
          generate_content a = Responds text ->
          new !! S i
          = Some (SetLastCall (datetime_now (trace w ++ take (S i) new))))
    /\ (forall (i : nat) t,
          new !! i = Some (SetLastCall t) ->
          exists j a text,
            i = S j /\ new !! j = Some (CallRemote a)
            /\ generate_content a = Responds text)
    /\ last_api_call (session w')
       = last_stamp new (last_api_call (session w))
    /\ medical_context (session w') = medical_context (session w).

(** A loop body that always ends as an attempt does. *)
Definition attempt_like {A : Type}
    (body : Z -> world -> outcome (control A) * world) : Prop :=
  forall a w, exists ctl slept,
    body a w = (Returned ctl, after_attempt a slept w).

End Runs.


(** The real number [m * 2 ^ e] a positive finite float stands for is at
    most the integer [n]. *)
Definition scaled_le (m : positive) (e n : Z) : Prop :=
  if 0 <=? e then Z.pos m * 2 ^ e <= n else Z.pos m <= n * 2 ^ (- e).

(** A float that stands for a real number from 0 to 100: a zero of either
    sign, or a positive finite float whose value is at most 100. *)
Definition float_in_0_100 (f : float) : Prop :=
  match FloatOps.Prim2SF f with
  | SpecFloat.S754_zero _ => True
  | SpecFloat.S754_finite false m e => scaled_le m e 100
  | _ => False
  end.

(** A float that is no number. *)
Definition float_nan (f : float) : Prop :=
  FloatOps.Prim2SF f = SpecFloat.S754_nan.

(** A probability between 0 and 100: an [int] in the interval, a [bool]
    (0 or 1), or a [float] whose value lies in the interval. *)
Definition in_range (prob : json) : Prop :=
  match prob with
  | JInt n => 0 <= n <= 100
  | JBool _ => True
  | JFloat f => float_in_0_100 f
  | _ => False
  end.

(** The one probability outside the interval the validator lets pass: a
    [float] that is a NaN, of which every comparison is false. *)
Definition nan_probability (prob : json) : Prop :=
  match prob with
  | JFloat f => float_nan f
  | _ => False
  end.



Definition empty_world : world := {| session := empty_session; trace := [] |}.

(** A clock that advances one second per event. *)
Definition ticking_clock (history : list event) : Z :=
  Z.of_nat (length history) * micros_per_second.

(** ** Vocabulary of the further statements *)

(** What [sanitize_input] leaves: no character of the removed class, and
    no white space but the plain space. *)
Definition sanitized_char (c : char) : Prop :=
  is_control c = false /\ (isspace c = true -> c = 32%N).

(** The sum of the counts of a distribution. *)
Definition count_total (d : list (pystr * Z)) : Z :=
  fold_right Z.add 0 (map snd d).

(** A series of [add_information(texto, tipo)] calls, each with the instant
    it is made at. *)
Definition add_all (calls : list (pystr * pystr * pystr)) (st : session_state)
  : session_state :=
  fold_left (fun st call =>
               add_information (fst (fst call)) (snd (fst call)) (snd call) st)
            calls st.

(** The trimmed texts of a series of calls, the blank ones left out. *)
Definition kept_texts (calls : list (pystr * pystr * pystr)) : list pystr :=
  List.filter (fun t => negb (str_not t)) (map (fun call => strip (fst (fst call))) calls).

(** A diagnosis [validate_diagnosticos] has nothing to say against: a
    dictionary with a [nome] and a [probabilidade] that lies between 0 and
    100 or is a NaN. *)
Definition valid_diagnosis (diag : json) : Prop :=
  exists fields nome prob,
    diag = JObj fields
    /\ dict_get (py "nome") fields = Some nome
    /\ dict_get (py "probabilidade") fields = Some prob
    /\ (in_range prob \/ nan_probability prob).

Definition fence : pystr := py "```".
Definition fence_json : pystr := py "```json".

(** The number of remote calls among some events. *)
Fixpoint remote_calls (evs : list event) : Z :=
  match evs with
  | [] => 0
  | CallRemote _ :: r => 1 + remote_calls r
  | _ :: r => remote_calls r
  end.

(** The seconds slept among some events. *)
Fixpoint total_sleep (evs : list event) : Z :=
  match evs with
  | [] => 0
  | Sleep secs :: r => secs + total_sleep r
  | _ :: r => total_sleep r
  end.

(** Every sleep among the events lasts [secs] seconds. *)
Definition sleeps_last (secs : Z) (evs : list event) : Prop :=
  forall s, In (Sleep s) evs -> s = secs.

Section MoreRuns.

Variable generate_content : Z -> reply.
Variable datetime_now : list event -> Z.

(** A loop body that always ends as an attempt does, sleeps [secs]
    seconds when it sleeps, and leaves the loop only with a result in
    [Q]. *)
Definition paced {A : Type} (secs : Z) (Q : A -> Prop)
    (body : Z -> world -> outcome (control A) * world) : Prop :=
  forall a w, exists ctl slept,
    body a w
    = (Returned ctl, after_attempt generate_content datetime_now a slept w)
    /\ (forall s, slept = Some s -> s = secs)
    /\ (forall r, ctl = Return r -> Q r).

(** A run from [w] that returned a result in [Q] after at most
    [max_retries] remote calls (none when that is not positive), each of
    its sleeps lasting one second. *)
Definition paced_run {A : Type} (max_retries : Z) (Q : A -> Prop) (w : world)
    (run : outcome A * world) : Prop :=
  exists r new,
    fst run = Returned r
    /\ trace (snd run) = trace w ++ new
    /\ 0 <= remote_calls new <= Z.max 0 max_retries
    /\ sleeps_last 1 new
    /\ Q r.

(** Suggestions as [generate_suggestions] hands them out: nothing, or an
    object whose three required fields are lists. *)
Definition suggestions_shape (r : option json) : Prop :=
  forall v, r = Some v ->
    exists fields,
      v = JObj fields
      /\ forallb (is_list_at fields) required_keys = true.

(** A record as the generators hand it out: the trimmed text of a
    non-empty reply and no error, or no record and a non-empty error. *)
Definition record_shape (r : medical_record) : Prop :=
  (exists a text,
      generate_content a = Responds (Some text) /\ text <> []
      /\ r = (Some (strip text), None))
  \/ (exists msg, msg <> [] /\ r = (None, Some msg)).

(** How a record generator ends: when the model is set and the
    formatting of the diagnoses raised, with that exception and the world
    untouched; in every other case as a paced run that returns a record
    of the shape above. *)
Definition record_run (model : bool) (prompt : outcome unit)
    (max_retries : Z) (w : world) (run : outcome medical_record * world)
  : Prop :=
  match prompt, model with
  | Raised e, true => run = (Raised e, w)
  | _, _ => paced_run max_retries record_shape w run
  end.

End MoreRuns.

(** A text with nothing but white space in it, the empty text included. *)
Definition blank (s : pystr) : Prop := Forall (fun c => isspace c = true) s.

(** The history of a session, empty when the key is missing. *)
Definition history_of (st : app_state) : list consultation :=
  match consultation_history st with
  | Some h => h
  | None => []
  end.

(** The three colours of the ranking. *)
Definition ranking_colors : list pystr :=
  [ py "#dc3545"; py "#ffc107"; py "#28a745" ].

(** A validator's answer that agrees with itself: true exactly when there
    is no message, and no empty message. *)
Definition consistent (v : bool * option pystr) : Prop :=
  (fst v = true <-> snd v = None)
  /\ (forall msg, snd v = Some msg -> msg <> []).

(** * Properties *)

(** ** Strings *)

Lemma startswith_app (p s : pystr) : startswith p (p ++ s) = true.
Proof.
  induction p as [|a p IH]; simpl; [reflexivity|].
  now rewrite N.eqb_refl, IH.
Qed.

Lemma startswith_inv (p s : pystr) :
  startswith p s = true -> exists r, s = p ++ r.
Proof.
  revert s; induction p as [|a p IH]; intros s H.
  - now exists s.
  - destruct s as [|b s]; simpl in H; [discriminate|].
    apply andb_true_iff in H as [Hab Hp].
    apply N.eqb_eq in Hab; subst b.
    destruct (IH _ Hp) as [r ->]. now exists r.
Qed.

Lemma contains_startswith (sub s : pystr) :
  startswith sub s = true -> contains sub s = true.
Proof. intros H. destruct s; simpl; now rewrite H. Qed.

Lemma contains_app (pre sub post : pystr) :
  contains sub (pre ++ sub ++ post) = true.
Proof.
  induction pre as [|c pre IH].
  - apply contains_startswith. exact (startswith_app sub post).
  - simpl. rewrite IH. apply orb_true_r.
Qed.

Lemma contains_inv (sub s : pystr) :
  contains sub s = true -> exists pre post, s = pre ++ sub ++ post.
Proof.
  induction s as [|c s IH]; simpl; intros H.
  - rewrite orb_false_r in H. destruct (startswith_inv _ _ H) as [r Hr].
    now exists [], r.
  - apply orb_true_iff in H as [H|H].
    + destruct (startswith_inv _ _ H) as [r Hr]. now exists [], r.
    + destruct (IH H) as (pre & post & ->). now exists (c :: pre), post.
Qed.

Lemma contains_self (s : pystr) : contains s s = true.
Proof.
  rewrite <- (app_nil_r s) at 2. apply (contains_app [] s []).
Qed.

Lemma contains_suffix (pre x : pystr) : contains x (pre ++ x) = true.
Proof.
  rewrite <- (app_nil_r x) at 2. apply contains_app.
Qed.

Lemma contains_within (x line pre post : pystr) :
  contains x line = true -> contains x (pre ++ line ++ post) = true.
Proof.
  intros H. destruct (contains_inv _ _ H) as (a & b & ->).
  replace (pre ++ (a ++ x ++ b) ++ post) with ((pre ++ a) ++ x ++ (b ++ post))
    by now rewrite <- !app_assoc.
  apply contains_app.
Qed.

Lemma join_cons (sep p : pystr) (rest : list pystr) :
  rest <> [] -> join sep (p :: rest) = p ++ sep ++ join sep rest.
Proof. destruct rest; [congruence | reflexivity]. Qed.

Lemma join_snoc (sep x : pystr) (parts : list pystr) :
  join sep (parts ++ [x]) =
  match parts with
  | [] => x
  | _ :: _ => join sep parts ++ sep ++ x
  end.
Proof.
  induction parts as [|p parts IH]; [reflexivity|].
  change ((p :: parts) ++ [x]) with (p :: (parts ++ [x])).
  rewrite join_cons by (now destruct parts).
  rewrite IH. destruct parts as [|q parts]; [reflexivity|].
  rewrite (join_cons sep p (q :: parts)) by easy. now rewrite <- !app_assoc.
Qed.

Lemma contains_join (sep x line : pystr) (before after : list pystr) :
  contains x line = true ->
  contains x (join sep (before ++ line :: after)) = true.
Proof.
  intros H. induction before as [|b before IH].
  - destruct after as [|a after]; simpl app.
    + exact H.
    + rewrite join_cons by easy.
      apply (contains_within x line [] (sep ++ join sep (a :: after)) H).
  - change ((b :: before) ++ line :: after) with (b :: (before ++ line :: after)).
    rewrite join_cons by (now destruct before).
    destruct (contains_inv _ _ IH) as (pre & post & ->).
    replace (b ++ sep ++ pre ++ x ++ post) with ((b ++ sep ++ pre) ++ x ++ post)
      by now rewrite <- !app_assoc.
    apply contains_app.
Qed.

(** ** Floats *)

Lemma digits2_pos_bounds (m : positive) :
  2 ^ (Z.pos (SpecFloat.digits2_pos m) - 1) <= Z.pos m
  < 2 ^ Z.pos (SpecFloat.digits2_pos m).
Proof.
  induction m as [m IH|m IH|]; cbn [SpecFloat.digits2_pos].
  - rewrite Pos2Z.inj_succ.
    replace (Z.succ (Z.pos (SpecFloat.digits2_pos m)) - 1)
      with (Z.succ (Z.pos (SpecFloat.digits2_pos m) - 1)) by lia.
    rewrite !Z.pow_succ_r by lia. lia.
  - rewrite Pos2Z.inj_succ.
    replace (Z.succ (Z.pos (SpecFloat.digits2_pos m)) - 1)
      with (Z.succ (Z.pos (SpecFloat.digits2_pos m) - 1)) by lia.
    rewrite !Z.pow_succ_r by lia. lia.
  - cbn. lia.
Qed.

(** The mantissa of a double has at most 53 bits, and exactly 53 unless
    the number is subnormal. *)
Lemma valid_mantissa (m : positive) (e : Z) :
  SpecFloat.bounded FloatOps.prec FloatOps.emax m e = true ->
  Z.pos m < 2 ^ 53 /\ (-1074 < e -> 2 ^ 52 <= Z.pos m).
Proof.
  unfold SpecFloat.bounded, SpecFloat.canonical_mantissa, SpecFloat.fexp,
    SpecFloat.emin, FloatOps.prec, FloatOps.emax.
  intros H. apply andb_true_iff in H as [H _]. apply Z.eqb_eq in H.
  pose proof (digits2_pos_bounds m) as [Hlo Hhi].
  set (d := Z.pos (SpecFloat.digits2_pos m)) in *.
  assert (Hd : 0 < d) by (unfold d; lia).
  split.
  - assert (d <= 53) by lia.
    eapply Z.lt_le_trans; [exact Hhi|]. apply Z.pow_le_mono_r; lia.
  - intros He. assert (d = 53) by lia.
    replace 52 with (d - 1) by lia. exact Hlo.
Qed.

(** The test [prob < 0 or prob > 100] is false on exactly the floats that
    stand for a number from 0 to 100, and on the NaNs. *)
Lemma out_of_range_float (f : float) :
  (PrimFloat.ltb f 0 || PrimFloat.ltb 100 f) = false
  <-> float_in_0_100 f \/ float_nan f.
Proof.
  rewrite !FloatAxioms.ltb_spec.
  unfold float_in_0_100, float_nan.
  pose proof (FloatAxioms.Prim2SF_valid f) as V.
  change (FloatOps.Prim2SF 0) with (SpecFloat.S754_zero false).
  change (FloatOps.Prim2SF 100)
    with (SpecFloat.S754_finite false 7036874417766400 (-46)).
  unfold SpecFloat.SFltb, SpecFloat.SFcompare.
  destruct (FloatOps.Prim2SF f) as [s|s| |s m e].
  - split; [now left | reflexivity].
  - destruct s; cbn [orb];
      (split; [discriminate | intros [[]|H]; discriminate H]).
  - split; [now right | reflexivity].
  - destruct s; cbn [orb].
    { split; [discriminate | intros [[]|H]; discriminate H]. }
    unfold SpecFloat.valid_binary in V.
    apply valid_mantissa in V as [Hhi Hlo].
    assert (P52 : 2 ^ 52 = 4503599627370496) by (vm_compute; reflexivity).
    assert (P53 : 2 ^ 53 = 9007199254740992) by (vm_compute; reflexivity).
    rewrite P52 in Hlo. rewrite P53 in Hhi. clear P52 P53.
    unfold scaled_le.
    destruct (Z.compare_spec (-46) e) as [<-|Hlt|Hgt].
    + replace (0 <=? -46) with false by reflexivity.
      replace (100 * 2 ^ (- -46)) with 7036874417766400
        by (vm_compute; reflexivity).
      rewrite Pos.compare_cont_spec.
      destruct (Pos.compare_spec 7036874417766400 m) as [E|H|H];
        cbn [Pos.switch_Eq].
      * split; [intros _; left | reflexivity]. rewrite <- E. apply Z.le_refl.
      * split; [discriminate|]. intros [H'|H']; [|discriminate H'].
        apply Pos2Z.pos_lt_pos in H.
        destruct (Z.lt_irrefl _ (Z.lt_le_trans _ _ _ H H')).
      * split; [intros _; left | reflexivity].
        apply Z.lt_le_incl. now apply Pos2Z.pos_lt_pos.
    + split; [discriminate|]. intros [H|H]; [|discriminate H].
      exfalso.
      assert (Hm : 4503599627370496 <= Z.pos m).
      { apply Hlo. apply Z.lt_trans with (-46); [reflexivity | exact Hlt]. }
      clear Hlo Hhi.
      destruct (Z.leb_spec 0 e) as [He|He].
      * assert (Hp : 1 <= 2 ^ e) by (apply (Z.pow_le_mono_r 2 0 e); lia).
        assert (Hc : 100 < 4503599627370496) by reflexivity.
        revert Hm Hc H Hp. generalize 4503599627370496 (2 ^ e) (Z.pos m).
        intros c p x Hm Hc H Hp. nia.
      * assert (Hp : 2 ^ (- e) <= 2 ^ 45) by (apply Z.pow_le_mono_r; lia).
        assert (Hc : 100 * 2 ^ 45 < 4503599627370496) by reflexivity.
        revert Hm Hc H Hp.
        generalize 4503599627370496 (2 ^ (- e)) (2 ^ 45) (Z.pos m).
        intros c p q x Hm Hc H Hp. nia.
    + split; [intros _; left | reflexivity].
      clear Hlo.
      destruct (Z.leb_spec 0 e) as [He|He]; [lia|].
      assert (Hp : 2 ^ 47 <= 2 ^ (- e)) by (apply Z.pow_le_mono_r; lia).
      assert (Hc : 9007199254740992 <= 100 * 2 ^ 47)
        by (vm_compute; discriminate).
      revert Hhi Hc Hp.
      generalize 9007199254740992 (2 ^ (- e)) (2 ^ 47) (Z.pos m).
      intros c p q x Hhi Hc Hp. nia.
Qed.

(** [validate_diagnosticos]'s test lets a probability pass exactly when it
    is a number between 0 and 100 or a NaN. *)
Lemma in_range_out_of_range (prob : json) :
  out_of_range prob = Some false <-> in_range prob \/ nan_probability prob.
Proof.
  destruct prob as [|b|n|f|s|l|o]; cbn [out_of_range in_range nan_probability];
    try (split; [discriminate | intros [[]|[]]]).
  - split; [intros _; now left | reflexivity].
  - split.
    + intros H. injection H as H. apply orb_false_iff in H as [H1 H2].
      apply Z.ltb_ge in H1, H2. left. lia.
    + intros [[H1 H2]|[]]. f_equal. apply orb_false_iff.
      split; apply Z.ltb_ge; lia.
  - rewrite <- out_of_range_float. split; [now intros [= ->] | now intros ->].
Qed.

(** ** Error classifier *)

Ltac split_ifs :=
  repeat match goal with
         | |- context [if ?b then _ else _] => destruct b eqn:?
         end.

Lemma get_friendly_error_message_nonempty (str_lower : pystr -> pystr)
    (error : exn) :
  get_friendly_error_message str_lower error <> [].
Proof.
  unfold get_friendly_error_message. split_ifs;
    intros H; vm_compute in H; discriminate H.
Qed.

(** C5. The error classifier is total: every error, whatever its text, is
    mapped to a non-empty message; and an error whose lowered text holds
    none of the known keywords is mapped to the generic message, the fixed
    prefix followed by the first 100 characters of the raw text and
    nothing else. *)
Theorem classifier_total (str_lower : pystr -> pystr) (error : exn) :
  get_friendly_error_message str_lower error <> []
  /\ ((forall kw, In kw known_keywords ->
                  contains kw (str_lower (exn_str error)) = false) ->
      get_friendly_error_message str_lower error
      = generic_prefix ++ take 100 (exn_str error)
      /\ (length (get_friendly_error_message str_lower error)
          <= length generic_prefix + 100)%nat).
Proof.
  split.
  - apply get_friendly_error_message_nonempty.
  - intros Hnone.
    assert (Hk : forall kw : string,
               In (py kw) known_keywords ->
               contains (py kw) (str_lower (exn_str error)) = false)
      by (intros kw; apply Hnone).
    assert (E : get_friendly_error_message str_lower error
                = generic_prefix ++ take 100 (exn_str error)).
    { unfold get_friendly_error_message, known_keywords in *.
      cbn [map In] in Hk.
      repeat (rewrite Hk by tauto). reflexivity. }
    split; [exact E|].
    rewrite E, length_app, length_take. lia.
Qed.

Lemma classifier_total_witness :
  get_friendly_error_message ascii_lower (ValueError (py "boom"))
  = py "❌ Erro inesperado: boom".
Proof.
  refine (proj1 (proj2 (classifier_total ascii_lower (ValueError (py "boom"))) _)).
  intros kw H. vm_compute in H.
  repeat (destruct H as [<-|H]; [vm_compute; reflexivity|]).
  destruct H.
Defined.

(** ** Rate gate *)

Lemma whole_seconds_truncates (d : Z) :
  truncates_to micros_per_second d (whole_seconds d).
Proof.
  unfold truncates_to, whole_seconds, micros_per_second.
  destruct (Z.le_gt_cases 0 d) as [Hd|Hd].
  - pose proof (Z.quot_rem' d 1000000) as E.
    pose proof (Z.rem_bound_pos d 1000000 Hd ltac:(lia)) as R.
    assert (Q : 0 <= d ÷ 1000000) by (apply Z.quot_pos; lia).
    set (q := d ÷ 1000000) in *. set (r := Z.rem d 1000000) in *. nia.
  - assert (Hq : d ÷ 1000000 = - (- d ÷ 1000000)).
    { rewrite <- Z.quot_opp_l by lia. f_equal. lia. }
    rewrite Hq. clear Hq.
    pose proof (Z.quot_rem' (- d) 1000000) as E.
    pose proof (Z.rem_bound_pos (- d) 1000000 ltac:(lia) ltac:(lia)) as R.
    assert (Q : 0 <= - d ÷ 1000000) by (apply Z.quot_pos; lia).
    set (q := - d ÷ 1000000) in *. set (r := Z.rem (- d) 1000000) in *. nia.
Qed.

(** C6. Both gates only read the session.  For intervals and clock
    differences of at most [2 ^ 32] seconds, [can_make_api_call] answers
    true exactly when the last call is absent or at least
    [min_interval_seconds] (3 by default) have elapsed, so also at exactly
    that many seconds; [check_rate_limit_status] answers true under the
    same condition for 3 seconds (and when the key is missing), and
    otherwise false together with the message that announces 3 less the
    whole seconds elapsed, rounded toward zero: a number from 1 to 3
    unless the clock is behind the last call. *)
Theorem rate_gate_can_proceed (min_interval now : Z) (last : option Z)
    (c : context) :
  let st := {| last_api_call := slot_of last; medical_context := c |} in
  exact_range min_interval now last ->
  (exists b, can_make_api_call min_interval now st = (Returned b, st)
             /\ (b = true <-> elapsed_at_least min_interval now last))
  /\ (forall t, can_make_api_call min_interval (t + min_interval * micros_per_second)
                  {| last_api_call := Instant t; medical_context := c |}
                = (Returned true,
                   {| last_api_call := Instant t; medical_context := c |}))
  /\ (exists b msg, check_rate_limit_status now st = ((b, msg), st)
                    /\ (b = true <-> elapsed_at_least 3 now last)
                    /\ (b = true -> msg = None)
                    /\ (b = false ->
                        exists t whole,
                          last = Some t
                          /\ truncates_to micros_per_second (now - t) whole
                          /\ msg = Some (rate_limit_message (3 - whole))
                          /\ (0 <= now - t -> 1 <= 3 - whole <= 3)))
  /\ check_rate_limit_status now
       {| last_api_call := KeyMissing; medical_context := c |}
     = ((true, None), {| last_api_call := KeyMissing; medical_context := c |}).
Proof.
  cbv zeta. intros _. split; [|split; [|split]].
  - destruct last as [t|]; unfold can_make_api_call; cbn.
    + eexists; split; [reflexivity|]. rewrite Z.leb_le. tauto.
    + exists true; tauto.
  - intros t. unfold can_make_api_call; cbn.
    replace (t + min_interval * micros_per_second - t)
      with (min_interval * micros_per_second) by lia.
    now rewrite Z.leb_refl.
  - destruct last as [t|]; unfold check_rate_limit_status;
      cbn [last_api_call slot_of elapsed_at_least].
    + fold (rate_limit_message (3 - whole_seconds (now - t))).
      destruct (Z.ltb_spec (now - t) (3 * micros_per_second)) as [Hlt|Hge].
      * eexists false, _; split; [reflexivity|].
        split; [split; [discriminate | lia]|].
        split; [discriminate|].
        intros _. exists t, (whole_seconds (now - t)).
        split; [reflexivity|].
        pose proof (whole_seconds_truncates (now - t)) as T.
        split; [exact T|]. split; [reflexivity|].
        intros Hpos. destruct T as [[T1 T2] T3].
        unfold micros_per_second in *.
        set (q := whole_seconds (now - t)) in *.
        set (d := now - t) in *. nia.
      * exists true, None; split; [reflexivity|].
        split; [tauto|]. split; [reflexivity | discriminate].
    + exists true, None; split; [reflexivity|].
      split; [tauto|]. split; [reflexivity | discriminate].
  - reflexivity.
Qed.

Lemma rate_gate_can_proceed_witness :
  exists b msg,
    check_rate_limit_status 1200000
      {| last_api_call := slot_of (Some 0);
         medical_context := _create_empty_context [] |}
    = ((b, msg),
       {| last_api_call := slot_of (Some 0);
          medical_context := _create_empty_context [] |})
    /\ (b = true <-> elapsed_at_least 3 1200000 (Some 0))
    /\ (b = true -> msg = None)
    /\ (b = false ->
        exists t whole,
          Some 0 = Some t
          /\ truncates_to micros_per_second (1200000 - t) whole
          /\ msg = Some (rate_limit_message (3 - whole))
          /\ (0 <= 1200000 - t -> 1 <= 3 - whole <= 3)).
Proof.
  apply (rate_gate_can_proceed 3 1200000 (Some 0) (_create_empty_context [])).
  unfold exact_range, micros_per_second. split; [vm_compute; discriminate|].
  vm_compute; discriminate.
Defined.

(** C10. The two gates agree: whatever the last-call value (none yet, or
    any instant) and whatever the clock reads, the verdict of
    [check_rate_limit_status] is the one [can_make_api_call] returns with
    its default interval of 3 seconds. *)
Theorem rate_gates_agree (now : Z) (last : option Z) (c : context) :
  let st := {| last_api_call := slot_of last; medical_context := c |} in
  fst (can_make_api_call 3 now st)
  = Returned (fst (fst (check_rate_limit_status now st))).
Proof.
  cbv zeta. destruct last as [t|];
    unfold can_make_api_call, check_rate_limit_status;
    cbn [last_api_call slot_of fst]; [|reflexivity].
  destruct (Z.ltb_spec (now - t) (3 * micros_per_second)),
           (Z.leb_spec (3 * micros_per_second) (now - t));
    cbn [fst]; try reflexivity; lia.
Qed.

(** ** Context accumulator *)

Lemma entry_lines_snoc (str_upper : pystr -> pystr)
    (strftime_iso : pystr -> option pystr) (es : list entry) (e : entry) :
  forall idx,
    exists before after,
      entry_lines str_upper strftime_iso idx (es ++ [e])
      = before ++ (py "Conteúdo: " ++ conteudo e) :: after.
Proof.
  induction es as [|e0 es IH]; intros idx.
  - eexists [_; _], [_]. reflexivity.
  - destruct (IH (idx + 1)) as (before & after & E).
    eexists (_ :: _ :: _ :: _ :: before), after.
    cbn [app entry_lines]. now rewrite E.
Qed.

Lemma strip_nil : strip [] = [].
Proof. reflexivity. Qed.

Lemma add_information_blank (texto tipo now_iso : pystr) (st : session_state) :
  strip texto = [] -> add_information texto tipo now_iso st = st.
Proof.
  intros E. unfold add_information. rewrite E. now rewrite orb_true_r.
Qed.

Lemma add_information_entries (texto tipo0 now_iso : pystr) (st : session_state) :
  strip texto <> [] ->
  add_information texto tipo0 now_iso st
  = set_medical_context
      {| timestamp := timestamp (medical_context st);
         especialidade := especialidade (medical_context st);
         entries := entries (medical_context st)
                    ++ [ {| entry_timestamp := now_iso;
                            tipo := tipo0;
                            conteudo := strip texto |} ] |} st.
Proof.
  intros E. unfold add_information.
  destruct texto as [|c r]; [now rewrite strip_nil in E|].
  destruct (strip (c :: r)); [congruence | reflexivity].
Qed.

Lemma render_full_text_snoc (st : session_state) (c : context) (e : entry) :
  entries c = entries (medical_context st) ++ [e] ->
  render_full_text (set_medical_context c st)
  = match entries (medical_context st) with
    | [] => conteudo e
    | _ :: _ => render_full_text st ++ blank_line ++ conteudo e
    end.
Proof.
  intros E. unfold render_full_text, get_entries. cbn [set_medical_context medical_context].
  rewrite E, map_app. cbn [map]. rewrite join_snoc.
  now destruct (entries (medical_context st)).
Qed.

(** C7 (as amended). [add_information] with a text whose trimmed form is
    empty leaves the session as it is.  With any other text it appends
    exactly one entry, holding the trimmed text, after the prior entries,
    which stay as they were; and both renderings of the context, the text
    sent to the model and the report of [get_full_context], then contain
    the trimmed text as a contiguous substring. *)
Theorem add_information_effect (str_upper : pystr -> pystr)
    (strftime_iso : pystr -> option pystr) (json_dumps : context -> pystr)
    (texto tipo0 now_iso : pystr) (st : session_state) :
  let st' := add_information texto tipo0 now_iso st in
  match strip texto with
  | [] => st' = st
  | _ :: _ =>
      (exists e, get_entries st' = get_entries st ++ [e]
                 /\ conteudo e = strip texto /\ tipo e = tipo0)
      /\ length (get_entries st') = S (length (get_entries st))
      /\ contains (strip texto) (render_full_text st') = true
      /\ contains (strip texto)
           (get_full_context str_upper strftime_iso json_dumps (py "text") st')
         = true
  end.
Proof.
  cbv zeta. destruct (strip texto) as [|c r] eqn:E.
  - now apply add_information_blank.
  - rewrite add_information_entries by congruence. rewrite E.
    set (e := {| entry_timestamp := now_iso; tipo := tipo0; conteudo := c :: r |}).
    split; [|split; [|split]].
    + exists e. now unfold get_entries.
    + unfold get_entries. cbn [set_medical_context medical_context entries].
      rewrite length_app. cbn [length]. lia.
    + rewrite (render_full_text_snoc st _ e) by reflexivity.
      destruct (entries (medical_context st)).
      * apply contains_self.
      * rewrite app_assoc. apply contains_suffix.
    + unfold get_full_context.
      cbn [set_medical_context medical_context entries especialidade timestamp].
      replace (str_eqb (py "text") (py "json")) with false by reflexivity.
      destruct (entry_lines_snoc str_upper strftime_iso
                  (entries (medical_context st)) e 1) as (before & after & EL).
      destruct (entries (medical_context st) ++ [e]) as [|e1 es1] eqn:Eapp;
        [now destruct (entries (medical_context st))|].
      rewrite EL.
      match goal with
      | |- contains _ (join _ (?hd ++ ?hist ++ before ++ ?line :: after)) = true =>
          replace (hd ++ hist ++ before ++ line :: after)
            with ((hd ++ hist ++ before) ++ line :: after)
            by now rewrite <- !app_assoc
      end.
      apply contains_join.
      apply contains_suffix.
Qed.

(** C7, as stated, fails on a text with surrounding white space: the entry
    is appended, yet neither rendering contains the text as it was given,
    only its trimmed form. *)
Lemma add_information_counterexample :
  let st' := add_information (py "febre ") (py "info")
               (py "2025-01-01T10:05:00") empty_session in
  length (get_entries st') = 1%nat
  /\ render_full_text st' = py "febre"
  /\ contains (py "febre ") (render_full_text st') = false
  /\ contains (py "febre ")
       (get_full_context ascii_upper (fun _ => None) (fun _ => [])
          (py "text") st') = false.
Proof. vm_compute. repeat split. Qed.

Lemma join_fold_left (sep first : pystr) (rest : list pystr) :
  join sep (first :: rest) = fold_left (fun acc c => acc ++ sep ++ c) rest first.
Proof.
  induction rest as [|z rest IH] using rev_ind; [reflexivity|].
  change (first :: rest ++ [z]) with ((first :: rest) ++ [z]).
  rewrite join_snoc, IH, fold_left_app. reflexivity.
Qed.

(** C8. The context text is exactly the entries' contents joined by a
    blank line, in insertion order: it is the first content followed, left
    to right, by a blank line and the next content; and adding a text puts
    its (trimmed) content last, after a blank line. *)
Theorem render_full_text_joined (st : session_state) :
  render_full_text st = joined_in_order (map conteudo (get_entries st))
  /\ forall texto tipo0 now_iso,
       render_full_text (add_information texto tipo0 now_iso st)
       = match strip texto, get_entries st with
         | [], _ => render_full_text st
         | _ :: _, [] => strip texto
         | _ :: _, _ :: _ => render_full_text st ++ blank_line ++ strip texto
         end.
Proof.
  split.
  - unfold render_full_text, joined_in_order.
    destruct (map conteudo (get_entries st)) as [|first rest]; [reflexivity|].
    apply join_fold_left.
  - intros texto tipo0 now_iso. destruct (strip texto) as [|c r] eqn:E.
    + now rewrite add_information_blank.
    + rewrite add_information_entries by congruence.
      rewrite (render_full_text_snoc st _ (mk_entry now_iso tipo0 (strip texto)))
        by reflexivity.
      unfold get_entries. cbn [conteudo]. now rewrite E.
Qed.

(** ** Truncation-tolerant parser *)

Lemma lstrip_by_split (f : char -> bool) (s : pystr) :
  exists d, s = d ++ lstrip_by f s /\ Forall (fun c => f c = true) d.
Proof.
  induction s as [|c s (d & E & F)]; [now exists []|].
  cbn [lstrip_by]. destruct (f c) eqn:Hc.
  - exists (c :: d). split; [now rewrite <- app_comm_cons, <- E | now constructor].
  - now exists [].
Qed.

Lemma lstrip_by_head (f : char -> bool) (s : pystr) :
  forall c r, lstrip_by f s = c :: r -> f c = false.
Proof.
  induction s as [|x s IH]; intros c r; cbn [lstrip_by]; [discriminate|].
  destruct (f x) eqn:Hx; [apply IH|]. intros E. now injection E as <- _.
Qed.

Lemma rstrip_by_split (f : char -> bool) (s : pystr) :
  exists removed, s = rstrip_by f s ++ removed
                  /\ Forall (fun c => f c = true) removed.
Proof.
  destruct (lstrip_by_split f (rev s)) as (d & E & F).
  exists (rev d). split.
  - unfold rstrip_by. rewrite <- rev_app_distr, <- E. now rewrite rev_involutive.
  - now apply Forall_rev.
Qed.

Lemma rstrip_by_last (f : char -> bool) (s p : pystr) (c : char) :
  rstrip_by f s = p ++ [c] -> f c = false.
Proof.
  unfold rstrip_by. intros E.
  apply (f_equal (@rev char)) in E.
  rewrite rev_involutive, rev_app_distr in E.
  exact (lstrip_by_head f _ _ _ E).
Qed.

Lemma complete_json_closers (clean_text : pystr) :
  let stripped := rstrip trailing_chars clean_text in
  complete_json clean_text
  = stripped
    ++ concat (replicate (unmatched lbrace rbrace stripped) closing_brace
               ++ replicate (unmatched lbracket rbracket stripped) closing_bracket).
Proof.
  cbv zeta. unfold complete_json, str_mul, unmatched.
  now rewrite concat_app, <- app_assoc.
Qed.

(** C1 (as amended). When the strict parse of the cleaned text fails with a
    message holding "Unterminated" or "Expecting" and the cleaned text
    holds the [diagnosticos_marker], the repair removes the trailing
    commas, newlines and spaces (and nothing else), counts the braces and
    brackets of what is left, appends one newline-and-closing-brace per
    unmatched opening brace and one newline-and-closing-bracket per
    unmatched opening bracket, and parses strictly again.  The parser
    returns the value of that second parse exactly when it is an object
    whose [diagnosticos] is a non-empty string, list or object, and [None]
    in every other case.  Without the marker nothing is repaired and the
    parser returns [None]. *)
Theorem structural_repair (json_loads : pystr -> json + pystr)
    (response_text error_msg : pystr) :
  let clean_text := clean_text_of response_text in
  let stripped := rstrip trailing_chars clean_text in
  json_loads clean_text = inr error_msg ->
  truncation_signature error_msg = true ->
  if contains diagnosticos_marker clean_text then
    (exists removed,
        clean_text = stripped ++ removed
        /\ Forall (fun c => char_in trailing_chars c = true) removed)
    /\ (forall p c, stripped = p ++ [c] -> char_in trailing_chars c = false)
    /\ (exists closers,
          complete_json clean_text = stripped ++ concat closers
          /\ Permutation closers
               (replicate (unmatched lbracket rbracket stripped) closing_bracket
                ++ replicate (unmatched lbrace rbrace stripped) closing_brace))
    /\ ((exists fields d,
            json_loads (complete_json clean_text) = inl (JObj fields)
            /\ dict_get (py "diagnosticos") fields = Some d
            /\ recoverable d
            /\ _parse_json_response json_loads response_text = JObj fields)
        \/ ((forall fields d,
                json_loads (complete_json clean_text) = inl (JObj fields) ->
                dict_get (py "diagnosticos") fields = Some d ->
                ~ recoverable d)
            /\ _parse_json_response json_loads response_text = JNull))
  else _parse_json_response json_loads response_text = JNull.
Proof.
  cbv zeta. intros Hfail Hsig. unfold _parse_json_response.
  rewrite Hfail, Hsig.
  destruct (contains diagnosticos_marker (clean_text_of response_text));
    [|reflexivity].
  split; [apply rstrip_by_split|].
  split; [intros p c; apply rstrip_by_last|].
  split.
  { eexists. split; [apply complete_json_closers|].
    apply Permutation_app_comm. }
  destruct (json_loads (complete_json (clean_text_of response_text)))
    as [partial_result|other] eqn:L;
    [|right; split; [intros fields d E; discriminate E | reflexivity]].
  destruct partial_result as [|b|n|f|s|l|fields];
    try (right; split; [intros fields d E; discriminate E | reflexivity]).
  cbn [recovered].
  destruct (dict_get (py "diagnosticos") fields) as [d|] eqn:G.
  2:{ right. split; [|reflexivity]. intros fields' d' E G'.
      injection E as <-. congruence. }
  assert (Hother : ~ recoverable d ->
                   (forall fields' d',
                       @inl json pystr (JObj fields) = inl (JObj fields') ->
                       dict_get (py "diagnosticos") fields' = Some d' ->
                       ~ recoverable d')).
  { intros Hd fields' d' E G'. injection E as <-.
    rewrite G in G'. now injection G' as <-. }
  destruct d as [|b|n|f|[|c s]|[|x l]|[|x o]]; cbn [truthy py_len];
    try (right; split; [apply Hother; intros [] | reflexivity]);
    try (left; eexists fields, _;
         split; [reflexivity|]; split; [exact G|]; split; [exact I|];
         reflexivity).
  - destruct b; cbn [negb];
      (right; split; [apply Hother; intros [] | reflexivity]).
  - destruct (negb (n =? 0));
      (right; split; [apply Hother; intros [] | reflexivity]).
  - destruct (negb (PrimFloat.eqb f 0));
      (right; split; [apply Hother; intros [] | reflexivity]).
Qed.

Lemma structural_repair_witness :
  _parse_json_response cpython_loads truncated_after_list
  = JObj [ (py "diagnosticos", JArr [ diagnosis_A ]);
           (py "observacoes", JStr (py "x")) ].
Proof.
  pose proof (structural_repair cpython_loads truncated_after_list
                (py "Expecting property name enclosed in double quotes: line 1 column 54 (char 53)")
                eq_refl eq_refl) as T.
  cbv zeta in T.
  replace (contains diagnosticos_marker (clean_text_of truncated_after_list))
    with true in T by (vm_compute; reflexivity).
  destruct T as (_ & _ & _ & [(fields & d & L & _ & _ & T) | (H & _)]).
  - rewrite T. vm_compute in L. injection L as <-. reflexivity.
  - exfalso.
    apply (H [ (py "diagnosticos", JArr [ diagnosis_A ]);
               (py "observacoes", JStr (py "x")) ]
             (JArr [ diagnosis_A ]));
      [vm_compute; reflexivity | vm_compute; reflexivity | exact I].
Defined.

(** C1, as stated, fails twice.  On a text cut inside the list the code
    appends the brace before the bracket, not bracket-then-brace, and the
    second parse fails where the specified order would have parsed; and on
    a truncated text without the marker (no space after the colon) no
    repair is made at all, although the repaired text parses. *)
Lemma structural_repair_counterexample :
  cpython_loads truncated_in_list
  = inr (py "Expecting value: line 1 column 33 (char 32)")
  /\ complete_json truncated_in_list
     = pyq "{'diagnosticos': [{'nome': 'A'}" ++ nl ++ py "}" ++ nl ++ py "]"
  /\ repair_bracket_then_brace truncated_in_list
     = pyq "{'diagnosticos': [{'nome': 'A'}" ++ nl ++ py "]" ++ nl ++ py "}"
  /\ _parse_json_response cpython_loads truncated_in_list = JNull
  /\ cpython_loads (repair_bracket_then_brace truncated_in_list)
     = inl (JObj [ (py "diagnosticos", JArr [ diagnosis_A ]) ])
  /\ cpython_loads truncated_unmarked
     = inr (py "Expecting property name enclosed in double quotes: line 1 column 33 (char 32)")
  /\ contains diagnosticos_marker (clean_text_of truncated_unmarked) = false
  /\ _parse_json_response cpython_loads truncated_unmarked = JNull
  /\ cpython_loads (complete_json truncated_unmarked)
     = inl (JObj [ (py "diagnosticos", JArr [ diagnosis_A ]) ]).
Proof. vm_compute. repeat split. Qed.

(** ** Retry loops *)

Section RunProofs.

Variable str_lower : pystr -> pystr.
Variable json_loads : pystr -> json + pystr.
Variable not_container_msg : json -> pystr.
Variable bad_index_msg : json -> pystr.
Variable generate_content : Z -> reply.
Variable datetime_now : list event -> Z.

Abbreviation stamps := (stamps_every_returned_call generate_content datetime_now).
Abbreviation attempted := (after_attempt generate_content datetime_now).

Lemma stamps_refl (w : world) : stamps w w.
Proof.
  exists []. rewrite app_nil_r. split; [reflexivity|].
  split; [intros i a text H; discriminate H|].
  split; [intros i t H; discriminate H|].
  split; reflexivity.
Qed.

Lemma stamps_trans (w w1 w2 : world) :
  stamps w w1 -> stamps w1 w2 -> stamps w w2.
Proof.
  intros (n1 & T1 & P1 & O1 & L1 & M1) (n2 & T2 & P2 & O2 & L2 & M2).
  exists (n1 ++ n2). split; [|split; [|split; [|split]]].
  - now rewrite T2, T1, app_assoc.
  - intros i a text Hi Ha.
    destruct (decide (i < length n1)%nat) as [Hlt|Hge].
    + rewrite lookup_app_l in Hi by exact Hlt.
      pose proof (P1 i a text Hi Ha) as Hs.
      pose proof (lookup_lt_Some _ _ _ Hs) as Hlen.
      rewrite lookup_app_l by exact Hlen.
      rewrite take_app_le by lia. exact Hs.
    + rewrite lookup_app_r in Hi by lia.
      pose proof (P2 _ a text Hi Ha) as Hs.
      rewrite lookup_app_r by lia.
      replace (S i - length n1)%nat with (S (i - length n1)) by lia.
      rewrite take_app_ge by lia.
      replace (S i - length n1)%nat with (S (i - length n1)) by lia.
      rewrite app_assoc, <- T1. exact Hs.
  - intros i t Hi.
    destruct (decide (i < length n1)%nat) as [Hlt|Hge].
    + rewrite lookup_app_l in Hi by exact Hlt.
      destruct (O1 i t Hi) as (j & a & text & -> & Hj & Ha).
      exists j, a, text. split; [reflexivity|]. split; [|exact Ha].
      rewrite lookup_app_l by lia. exact Hj.
    + rewrite lookup_app_r in Hi by lia.
      destruct (O2 _ t Hi) as (j & a & text & Ej & Hj & Ha).
      exists (length n1 + j)%nat, a, text. split; [lia|]. split; [|exact Ha].
      rewrite lookup_app_r by lia.
      now replace (length n1 + j - length n1)%nat with j by lia.
  - rewrite L2, L1. unfold last_stamp. now rewrite fold_left_app.
  - now rewrite M2.
Qed.

Lemma stamps_attempt (a : Z) (slept : option Z) (w : world) :
  stamps w (attempted a slept w).
Proof.
  unfold after_attempt.
  destruct (generate_content a) as [e|text0] eqn:E; destruct slept as [secs|];
    eexists; (split; [|split; [|split; [|split]]]);
    try (cbn [sleep record stamp trace session]; rewrite <- ?app_assoc;
         cbn [app]; reflexivity);
    try (intros [|[|[|i]]] b text Hi Hb; cbn in Hi; try discriminate Hi;
         injection Hi as <-; try (rewrite E in Hb; discriminate Hb);
         reflexivity);
    try (intros [|[|[|i]]] t Hi; cbn in Hi;
         first [ discriminate Hi
               | eexists O, a, _; repeat split; exact E ]).
Qed.

Lemma for_range_attempts {A : Type}
    (body : Z -> world -> outcome (control A) * world) (after : A) :
  attempt_like generate_content datetime_now body ->
  forall fuel a w,
    exists r w', for_range body after fuel a w = (Returned r, w')
                 /\ stamps w w'.
Proof.
  intros Hbody. induction fuel as [|fuel IH]; intros a w; cbn [for_range].
  - exists after, w. split; [reflexivity | apply stamps_refl].
  - destruct (Hbody a w) as (ctl & slept & ->).
    destruct ctl as [r|].
    + exists r, (attempted a slept w). split; [reflexivity|].
      apply stamps_attempt.
    + destruct (IH (a + 1) (attempted a slept w)) as (r & w' & E & S').
      exists r, w'. split; [exact E|].
      eapply stamps_trans; [apply stamps_attempt | exact S'].
Qed.

Abbreviation verdict_of :=
  (analyze_verdict json_loads not_container_msg bad_index_msg generate_content).
Abbreviation analyze_body max_retries :=
  (fun attempt =>
     try_except
       (analyze_try json_loads not_container_msg bad_index_msg
          generate_content datetime_now max_retries attempt)
       (analyze_except str_lower max_retries attempt)).

Lemma analyze_attempt_spec (max_retries a : Z) (w : world) :
  analyze_body max_retries a w
  = match verdict_of a with
    | Succeeded v => (Returned (Return (Some v, None)), attempted a None w)
    | v =>
        if a <? max_retries - 1
        then (Returned Continue, attempted a (Some (2 ^ a)) w)
        else (Returned (Return (None, Some (failure_message str_lower v))),
              attempted a None w)
    end.
Proof.
  unfold try_except, analyze_try, analyze_except, call_remote, analyze_verdict,
    after_attempt.
  destruct (generate_content a) as [e|[[|c t]|]]; cbn [failure_message];
    try (destruct (a <? max_retries - 1); reflexivity).
  destruct (truthy (_parse_json_response json_loads (c :: t))).
  - destruct (has_diagnosticos_list not_container_msg bad_index_msg
                (_parse_json_response json_loads (c :: t))) as [[|]|e];
      cbn [failure_message]; try reflexivity;
      destruct (a <? max_retries - 1); reflexivity.
  - destruct (a <? max_retries - 1); reflexivity.
Qed.

Lemma analyze_attempt_like (max_retries : Z) :
  attempt_like generate_content datetime_now (analyze_body max_retries).
Proof.
  intros a w. rewrite analyze_attempt_spec.
  destruct (verdict_of a); try destruct (a <? max_retries - 1);
    eexists _, _; reflexivity.
Qed.

Lemma suggestions_attempt_like (max_retries : Z) :
  attempt_like generate_content datetime_now
    (fun attempt =>
       try_except
         (suggestions_try json_loads not_container_msg bad_index_msg
            generate_content datetime_now max_retries attempt)
         (suggestions_except max_retries attempt)).
Proof.
  intros a w.
  unfold try_except, suggestions_try, suggestions_except, call_remote,
    after_attempt.
  destruct (generate_content a) as [e|[[|c t]|]].
  - destruct (a <? max_retries - 1);
      [exists Continue, (Some 1) | exists (Return None), None]; reflexivity.
  - exists Continue, None; reflexivity.
  - destruct (if truthy (_parse_json_response json_loads (c :: t))
              then _validate_suggestions_structure not_container_msg
                     bad_index_msg (_parse_json_response json_loads (c :: t))
              else Returned false) as [[|]|e].
    + eexists (Return _), None; reflexivity.
    + destruct (a <? max_retries - 1);
        [exists Continue, (Some 1) | exists Continue, None]; reflexivity.
    + destruct (a <? max_retries - 1);
        [exists Continue, (Some 1) | exists (Return None), None]; reflexivity.
  - exists Continue, None; reflexivity.
Qed.

Lemma record_attempt_like (max_retries : Z) :
  attempt_like generate_content datetime_now
    (fun attempt =>
       try_except
         (record_try generate_content datetime_now max_retries attempt)
         (record_except str_lower max_retries attempt)).
Proof.
  intros a w.
  unfold try_except, record_try, record_except, call_remote, after_attempt.
  destruct (generate_content a) as [e|[[|c t]|]];
    try (destruct (a <? max_retries - 1);
         [exists Continue, (Some 1) | eexists (Return _), None]; reflexivity).
  eexists (Return _), None; reflexivity.
Qed.

Lemma try_except_returned {A : Type} (body : world -> outcome A * world)
    (handler : exn -> world -> outcome A * world) (w w' : world) (a : A) :
  body w = (Returned a, w') -> try_except body handler w = (Returned a, w').
Proof. unfold try_except. now intros ->. Qed.

(** C4 (as amended). In [analyze_case], [generate_suggestions] and
    [generate_traditional_record] alike, every attempt whose remote call
    returns, whatever it returned and however the attempt then ends, is
    followed at once by the write of the clock's reading to
    [last_api_call]; nothing else is written, so an attempt whose call
    raises leaves [last_api_call] as it was; the value left in the
    session is the last one written, and nothing else of the session
    changes. *)
Theorem last_call_stamped (model : bool) (context specialty : pystr)
    (setup prompt : outcome unit) (max_retries : Z) (w : world) :
  stamps w
    (snd (analyze_case str_lower json_loads not_container_msg bad_index_msg
            generate_content datetime_now model context specialty
            max_retries w))
  /\ stamps w
       (snd (generate_suggestions json_loads not_container_msg bad_index_msg
               generate_content datetime_now setup max_retries w))
  /\ stamps w
       (snd (generate_traditional_record str_lower generate_content
               datetime_now model prompt max_retries w)).
Proof.
  split; [|split].
  - unfold analyze_case.
    destruct (negb model); [apply stamps_refl|].
    destruct (str_not context || str_not (strip context)); [apply stamps_refl|].
    destruct (for_range_attempts _
                (None, Some (py "Erro desconhecido durante análise"))
                (analyze_attempt_like max_retries)
                (Z.to_nat max_retries) 0 w) as (r & w' & E & S').
    exact (@eq_ind_r _ (Returned r, w') (fun x => stamps w (snd x)) S' _ E).
  - unfold generate_suggestions.
    destruct setup as [u|e]; [|apply stamps_refl].
    destruct (for_range_attempts _ None
                (suggestions_attempt_like max_retries)
                (Z.to_nat max_retries) 0 w) as (r & w' & E & S').
    erewrite try_except_returned by exact E. exact S'.
  - unfold generate_traditional_record.
    destruct (negb model); [apply stamps_refl|].
    destruct prompt as [u|e]; [|apply stamps_refl].
    destruct (for_range_attempts _ (None, Some (py "Erro desconhecido"))
                (record_attempt_like max_retries)
                (Z.to_nat max_retries) 0 w) as (r & w' & E & S').
    exact (@eq_ind_r _ (Returned r, w') (fun x => stamps w (snd x)) S' _ E).
Qed.



Lemma str_eqb_refl (a : pystr) : str_eqb a a = true.
Proof. induction a as [|x a IH]; cbn; [reflexivity|]. now rewrite N.eqb_refl. Qed.

Lemma str_eqb_eq (a b : pystr) : str_eqb a b = true <-> a = b.
Proof.
  split; [|intros ->; apply str_eqb_refl].
  revert b; induction a as [|x a IH]; intros [|y b]; cbn; try discriminate;
    [reflexivity|].
  intros H. apply andb_true_iff in H as [Hx Ha].
  apply N.eqb_eq in Hx. now rewrite Hx, (IH _ Ha).
Qed.








Lemma for_range_step {A : Type}
    (body : Z -> world -> outcome (control A) * world) (after : A)
    (fuel : nat) (a : Z) (w : world) :
  for_range body after (S fuel) a w
  = match body a w with
    | (Returned (Return r), w') => (Returned r, w')
    | (Returned Continue, w') => for_range body after fuel (a + 1) w'
    | (Raised e, w') => (Raised e, w')
    end.
Proof. reflexivity. Qed.

Lemma attempted_events (a : Z) (slept : option Z) (w : world) :
  exists new,
    trace (attempted a slept w) = trace w ++ new
    /\ calls_and_sleeps new
       = CallRemote a :: match slept with
                         | Some secs => [Sleep secs]
                         | None => []
                         end.
Proof.
  unfold after_attempt.
  destruct (generate_content a), slept; eexists;
    (split; [cbn [sleep record stamp trace]; rewrite <- ?app_assoc; reflexivity
            | reflexivity]).
Qed.

Lemma schedule_cons (k : nat) (a : Z) :
  (0 < k)%nat ->
  schedule (S k) a = CallRemote a :: Sleep (2 ^ a) :: schedule k (a + 1).
Proof. destruct k; [lia | reflexivity]. Qed.

(** The loop of [analyze_case] from attempt [a] with [fuel] attempts left:
    it returns, its calls and sleeps follow the schedule, and when every
    attempt fails it uses them all and reports the last failure. *)
Lemma analyze_loop_schedule (max_retries : Z) :
  forall (fuel : nat) (a : Z) (w : world),
    Z.of_nat fuel = max_retries - a ->
    exists r w' new k,
      for_range (A := analysis) (analyze_body max_retries)
        (None, Some (py "Erro desconhecido durante análise")) fuel a w
      = (Returned r, w')
      /\ trace w' = trace w ++ new
      /\ calls_and_sleeps new = schedule k a
      /\ (k <= fuel)%nat
      /\ ((0 < fuel)%nat -> (0 < k)%nat)
      /\ ((forall b, a <= b < max_retries -> failed (verdict_of b) = true) ->
          k = fuel
          /\ ((0 < fuel)%nat ->
              r = (None,
                   Some (failure_message str_lower
                           (verdict_of (max_retries - 1)))))).
Proof.
  induction fuel as [|fuel IH]; intros a w Hfuel.
  - eexists _, w, [], O. cbn [for_range].
    split; [reflexivity|]. split; [now rewrite app_nil_r|].
    split; [reflexivity|]. split; [lia|]. split; [lia|].
    intros _. split; [reflexivity | lia].
  - rewrite for_range_step, analyze_attempt_spec.
    assert (Hlast : (a <? max_retries - 1) = false -> a = max_retries - 1 /\ fuel = O)
      by (intros H; apply Z.ltb_ge in H; lia).
    assert (Hmore : (a <? max_retries - 1) = true ->
                    Z.of_nat fuel = max_retries - (a + 1) /\ (0 < fuel)%nat)
      by (intros H; apply Z.ltb_lt in H; lia).
    assert (Hret : forall v,
               exists new,
                 trace (attempted a None w) = trace w ++ new
                 /\ calls_and_sleeps new = schedule 1 a
                 /\ (1 <= S fuel)%nat /\ ((0 < S fuel)%nat -> (0 < 1)%nat)
                 /\ ((a <? max_retries - 1) = false ->
                     verdict_of a = v ->
                     1%nat = S fuel
                     /\ ((0 < S fuel)%nat ->
                         (None, Some (failure_message str_lower v))
                         = (@None json,
                            Some (failure_message str_lower
                                    (verdict_of (max_retries - 1))))))).
    { intros v. destruct (attempted_events a None w) as (new & T & C).
      exists new. split; [exact T|]. split; [exact C|].
      split; [lia|]. split; [lia|]. intros Hl V.
      destruct (Hlast Hl) as [-> ->]. split; [reflexivity|].
      intros _. now rewrite V. }
    assert (Hcont :
             (a <? max_retries - 1) = true ->
             exists r w' new k,
               for_range (A := analysis) (analyze_body max_retries)
                 (None, Some (py "Erro desconhecido durante análise")) fuel
                 (a + 1) (attempted a (Some (2 ^ a)) w)
               = (Returned r, w')
               /\ trace w' = trace w ++ new
               /\ calls_and_sleeps new = schedule k a
               /\ (k <= S fuel)%nat
               /\ ((0 < S fuel)%nat -> (0 < k)%nat)
               /\ ((forall b, a <= b < max_retries ->
                               failed (verdict_of b) = true) ->
                   k = S fuel
                   /\ ((0 < S fuel)%nat ->
                       r = (None,
                            Some (failure_message str_lower
                                    (verdict_of (max_retries - 1))))))).
    { intros Hl. destruct (Hmore Hl) as [Hf Hpos].
      destruct (IH (a + 1) (attempted a (Some (2 ^ a)) w) Hf)
        as (r & w' & new' & k' & E & T' & C' & Hle & Hk & Hall).
      destruct (attempted_events a (Some (2 ^ a)) w) as (new & T & C).
      exists r, w', (new ++ new'), (S k').
      split; [exact E|]. split; [now rewrite T', T, app_assoc|].
      split.
      { unfold calls_and_sleeps in *. rewrite List.filter_app, C, C'.
        rewrite schedule_cons by auto. reflexivity. }
      split; [lia|]. split; [lia|].
      intros Hfail. destruct Hall as [-> Hr]; [intros b Hb; apply Hfail; lia|].
      split; [reflexivity|]. intros _. now apply Hr. }
    destruct (verdict_of a) as [v| |e] eqn:V.
    + destruct (Hret (Succeeded v)) as (new & T & C & H1 & H2 & _).
      eexists _, _, new, 1%nat. split; [reflexivity|].
      split; [exact T|]. split; [exact C|]. split; [exact H1|].
      split; [exact H2|].
      intros Hfail. specialize (Hfail a ltac:(lia)). rewrite V in Hfail.
      discriminate Hfail.
    + destruct (a <? max_retries - 1) eqn:Hl; [now apply Hcont|].
      destruct (Hret ParseFailed) as (new & T & C & H1 & H2 & H3).
      eexists _, _, new, 1%nat. split; [reflexivity|].
      split; [exact T|]. split; [exact C|]. split; [exact H1|].
      split; [exact H2|]. intros _. now apply H3.
    + destruct (a <? max_retries - 1) eqn:Hl; [now apply Hcont|].
      destruct (Hret (Threw e)) as (new & T & C & H1 & H2 & H3).
      eexists _, _, new, 1%nat. split; [reflexivity|].
      split; [exact T|]. split; [exact C|]. split; [exact H1|].
      split; [exact H2|]. intros _. now apply H3.
Qed.

Abbreviation run_analyze :=
  (analyze_case str_lower json_loads not_container_msg bad_index_msg
     generate_content datetime_now).

(** C2. In a run of [analyze_case] with [max_retries = 3] the calls and
    sleeps are an initial part of: attempt 0, sleep 1, attempt 1, sleep 2,
    attempt 2, ending with an attempt.  So each sleep lies between two
    attempts and lasts [2 ^ attempt] seconds, none precedes the first
    attempt and none follows the last; when all three attempts fail the
    whole sequence is run. *)
Theorem backoff_schedule (model : bool) (context specialty : pystr)
    (w : world) :
  exists new,
    trace (snd (run_analyze model context specialty 3 w)) = trace w ++ new
    /\ In (calls_and_sleeps new)
         [ [];
           [CallRemote 0];
           [CallRemote 0; Sleep 1; CallRemote 1];
           [CallRemote 0; Sleep 1; CallRemote 1; Sleep 2; CallRemote 2] ]
    /\ (model = true ->
        str_not context || str_not (strip context) = false ->
        (forall a, 0 <= a < 3 -> failed (verdict_of a) = true) ->
        calls_and_sleeps new
        = [CallRemote 0; Sleep 1; CallRemote 1; Sleep 2; CallRemote 2]).
Proof.
  unfold analyze_case.
  destruct model; cbn [negb].
  2:{ exists []. split; [now rewrite app_nil_r|]. split; [now left|].
      discriminate. }
  destruct (str_not context || str_not (strip context)).
  { exists []. split; [now rewrite app_nil_r|]. split; [now left|].
    discriminate. }
  destruct (analyze_loop_schedule 3 3 0 w eq_refl)
    as (r & w' & new & k & E & T & C & Hle & Hpos & Hall).
  exists new. split.
  { exact (@eq_ind_r _ (Returned r, w')
             (fun x => trace (snd x) = trace w ++ new) T _ E). }
  split.
  - rewrite C. specialize (Hpos ltac:(lia)).
    destruct k as [|[|[|[|k]]]]; try lia; cbn; tauto.
  - intros _ _ Hfail. destruct (Hall Hfail) as [-> _]. exact C.
Qed.







End RunProofs.

(** ** The pipeline on concrete remote behaviours *)

Lemma backoff_schedule_witness :
  calls_and_sleeps
    (trace (snd (analyze_case ascii_lower cpython_loads type_error_text
                   type_error_text (fun _ => Raises quota_error) ticking_clock
                   true (py "febre e tosse") (py "Pneumologia") 3 empty_world)))
  = [CallRemote 0; Sleep 1; CallRemote 1; Sleep 2; CallRemote 2].
Proof.
  destruct (backoff_schedule ascii_lower cpython_loads type_error_text
              type_error_text (fun _ => Raises quota_error) ticking_clock
              true (py "febre e tosse") (py "Pneumologia") empty_world)
    as (new & T & _ & H).
  rewrite T. apply H; [reflexivity | reflexivity | intros; reflexivity].
Defined.

(** C4, as stated, fails on the attempts whose call raises: with the
    quota exhausted each of the three attempts reaches the remote endpoint
    and fails, and [last_api_call] is never written; it is [None] before
    the run and still [None] after it. *)
Lemma last_call_stamped_counterexample :
  let run :=
    analyze_case ascii_lower cpython_loads type_error_text type_error_text
      (fun _ => Raises quota_error) ticking_clock
      true (py "febre e tosse") (py "Pneumologia") 3 empty_world in
  trace (snd run) = [CallRemote 0; Sleep 1; CallRemote 1; Sleep 2; CallRemote 2]
  /\ last_api_call (session empty_world) = PyNone
  /\ last_api_call (session (snd run)) = PyNone.
Proof. vm_compute. repeat split. Qed.

(** A reply whose repaired text parses to an object with the number 5 as
    [diagnosticos]: the success notice of the recovery branch raises on
    [len(5)], the parser returns [None], and [analyze_case] ends with the
    parse-failure text after three attempts. *)
Lemma scalar_diagnosticos_not_recovered :
  cpython_loads (complete_json (clean_text_of truncated_scalar))
  = inl (JObj [ (py "diagnosticos", JInt 5);
                (py "k", JObj [ (py "diagnosticos", JArr [ JInt 1 ]) ]) ])
  /\ _parse_json_response cpython_loads truncated_scalar = JNull
  /\ fst (analyze_case ascii_lower cpython_loads type_error_text
            type_error_text (fun _ => Responds (Some truncated_scalar))
            ticking_clock true (py "febre e tosse") (py "Pneumologia") 3
            empty_world)
     = Returned (None, Some parse_failure_message).
Proof. vm_compute. repeat split. Qed.




(** * Further properties *)

(** ** Input validators *)

Lemma split_from_nonspace (s : pystr) :
  forall word,
    Forall (fun c => isspace c = false) word ->
    Forall (Forall (fun c => isspace c = false)) (split_from word s).
Proof.
  induction s as [|c r IH]; intros word Hw; cbn [split_from].
  - destruct word; [constructor|]. constructor; [|constructor].
    now apply Forall_rev.
  - destruct (isspace c) eqn:Hc.
    + destruct word; [apply IH; constructor|].
      constructor; [now apply Forall_rev | apply IH; constructor].
    + apply IH. now constructor.
Qed.

Lemma split_from_blank (s : pystr) :
  Forall (fun c => isspace c = true) s -> split_from [] s = [].
Proof.
  induction 1 as [|c r Hc _ IH]; [reflexivity|].
  cbn [split_from]. now rewrite Hc.
Qed.

Lemma join_space_chars (words : list pystr) :
  Forall (Forall (fun c => isspace c = false)) words ->
  Forall (fun c => isspace c = true -> c = 32%N) (join (py " ") words).
Proof.
  induction 1 as [|w ws Hw _ IH]; [constructor|].
  assert (Hword : Forall (fun c => isspace c = true -> c = 32%N) w).
  { eapply Forall_impl; [exact Hw|]. cbn. intros c H1 H2. congruence. }
  destruct ws as [|w' ws]; [exact Hword|].
  rewrite join_cons by easy.
  apply Forall_app. split; [exact Hword|].
  apply Forall_app. split; [|exact IH].
  constructor; [reflexivity | constructor].
Qed.

Lemma slice_to_length (stop : Z) (s : pystr) :
  0 <= stop -> Z.of_nat (length (slice_to stop s)) <= stop.
Proof.
  intros H. unfold slice_to.
  destruct (Z.leb_spec 0 stop); [|lia]. rewrite length_take. lia.
Qed.

Lemma slice_to_Forall (P : char -> Prop) (stop : Z) (s : pystr) :
  Forall P s -> Forall P (slice_to stop s).
Proof. intros H. unfold slice_to. destruct (0 <=? stop); now apply Forall_take. Qed.

Lemma filter_length_bound {A : Type} (f : A -> bool) (l : list A) :
  (length (List.filter f l) <= length l)%nat.
Proof.
  induction l as [|x l IH]; cbn; [lia|]. destruct (f x); cbn; lia.
Qed.

(** X1. [sanitize_input] never returns more than [max_length] characters,
    for every text and every non-negative [max_length]. *)
Theorem sanitize_input_length (text : pystr) (max_length : Z) :
  0 <= max_length ->
  Z.of_nat (length (sanitize_input text max_length)) <= max_length.
Proof.
  intros Hmax. unfold sanitize_input.
  destruct (str_not text); [cbn; lia|].
  set (joined := join (py " ") (split text)).
  pose proof (filter_length_bound (fun c => negb (is_control c))
                (if max_length <? Z.of_nat (length joined)
                 then slice_to max_length joined else joined)) as Hf.
  destruct (Z.ltb_spec max_length (Z.of_nat (length joined))) as [Hlt|Hge].
  - pose proof (slice_to_length max_length joined Hmax). lia.
  - lia.
Qed.

Lemma sanitize_input_length_witness :
  Z.of_nat (length (sanitize_input (py "febre  alta e tosse") 8)) <= 8.
Proof. apply sanitize_input_length. lia. Defined.

(** X2. Whatever the text and the bound, the text [sanitize_input] returns
    holds none of the control characters of its pattern, and its only
    white space is the plain space: tabs and line breaks do not survive. *)
Theorem sanitize_input_chars (text : pystr) (max_length : Z) :
  Forall sanitized_char (sanitize_input text max_length).
Proof.
  unfold sanitize_input. destruct (str_not text); [constructor|].
  set (joined := join (py " ") (split text)).
  assert (Hj : Forall (fun c => isspace c = true -> c = 32%N) joined).
  { apply join_space_chars, split_from_nonspace. constructor. }
  assert (Hs : Forall (fun c => isspace c = true -> c = 32%N)
                 (if max_length <? Z.of_nat (length joined)
                  then slice_to max_length joined else joined)).
  { destruct (max_length <? Z.of_nat (length joined));
      [now apply slice_to_Forall | exact Hj]. }
  apply List.Forall_forall. intros c Hc.
  apply List.filter_In in Hc as [Hin Hctl].
  split; [now apply negb_true_iff in Hctl|].
  rewrite List.Forall_forall in Hs. now apply Hs.
Qed.

(** X3. A text that is empty or made of white space only is sanitized to
    the empty string. *)
Theorem sanitize_input_blank (text : pystr) (max_length : Z) :
  Forall (fun c => isspace c = true) text ->
  sanitize_input text max_length = [].
Proof.
  intros H. unfold sanitize_input, split.
  destruct (str_not text); [reflexivity|].
  rewrite (split_from_blank text H). cbn [join length Z.of_nat].
  unfold slice_to. rewrite !take_nil.
  destruct (max_length <? Z.of_nat 0), (0 <=? max_length); reflexivity.
Qed.

Lemma sanitize_input_blank_witness :
  sanitize_input ([9; 32; 10; 160]%N) 50000 = [].
Proof.
  apply sanitize_input_blank. repeat constructor.
Defined.

(** X4. [validate_specialty] accepts exactly the specialties the selector
    of the application offers ([get_specialty_list]); in particular the
    specialty [get_especialidade] reads after [clear_context] is accepted,
    whatever the session held, and the empty one is not. *)
Theorem validate_specialty_offered (specialty : pystr) :
  (fst (validate_specialty specialty) = true <-> In specialty get_specialty_list)
  /\ (forall now_iso st,
        validate_specialty (get_especialidade (clear_context now_iso st))
        = (true, None))
  /\ validate_specialty [] = (false, Some (py "Especialidade não selecionada")).
Proof.
  split; [|split; [intros; vm_compute; reflexivity | reflexivity]].
  change get_specialty_list with valid_specialties.
  unfold validate_specialty.
  destruct specialty as [|c r]; cbn [str_not fst].
  - split; [discriminate|]. intros H. vm_compute in H.
    repeat (destruct H as [H|H]; [discriminate H|]). destruct H.
  - destruct (existsb (str_eqb (c :: r)) valid_specialties) eqn:E; cbn [negb fst].
    + split; [intros _|reflexivity].
      apply existsb_exists in E as (x & Hin & Hx).
      apply str_eqb_eq in Hx. now rewrite Hx.
    + split; [discriminate|]. intros Hin.
      assert (existsb (str_eqb (c :: r)) valid_specialties = true) as E'.
      { apply existsb_exists. exists (c :: r). split; [exact Hin|].
        apply str_eqb_refl. }
      congruence.
Qed.

Lemma validate_loop_valid (l : list json) :
  forall idx,
    fst (validate_diagnosticos_loop idx l) = true <-> Forall valid_diagnosis l.
Proof.
  induction l as [|diag l IH]; intros idx; [split; [constructor | reflexivity]|].
  cbn [validate_diagnosticos_loop].
  assert (Hno : forall P : Prop, (forall fields, diag <> JObj fields) ->
                  (false = true <-> Forall valid_diagnosis (diag :: l))).
  { intros _ Hd. split; [discriminate|]. intros H. inversion H as [|? ? Hv _].
    destruct Hv as (fields & _ & _ & -> & _). now destruct (Hd fields). }
  destruct diag as [| | | | | |fields]; cbn [fst]; try (apply (Hno True); discriminate).
  clear Hno.
  destruct (dict_get (py "nome") fields) as [nome|] eqn:Hn; cbn [fst].
  2:{ split; [discriminate|]. intros H. inversion H as [|? ? Hv _].
      destruct Hv as (f & n & p & E & Hn' & _). injection E as <-. congruence. }
  destruct (dict_get (py "probabilidade") fields) as [prob|] eqn:Hp; cbn [fst].
  2:{ split; [discriminate|]. intros H. inversion H as [|? ? Hv _].
      destruct Hv as (f & n & p & E & _ & Hp' & _). injection E as <-. congruence. }
  pose proof (in_range_out_of_range prob) as Hr.
  destruct (out_of_range prob) as [[|]|] eqn:R; cbn [fst].
  - split; [discriminate|]. intros H. inversion H as [|? ? Hv _].
    destruct Hv as (f & n & p & E & _ & Hp' & Hin). injection E as <-.
    rewrite Hp in Hp'. injection Hp' as <-. apply Hr in Hin. discriminate Hin.
  - rewrite IH. split.
    + intros H. constructor; [|exact H].
      exists fields, nome, prob. repeat split; try assumption. now apply Hr.
    + intros H. now inversion H.
  - split; [discriminate|]. intros H. inversion H as [|? ? Hv _].
    destruct Hv as (f & n & p & E & _ & Hp' & Hin). injection E as <-.
    rewrite Hp in Hp'. injection Hp' as <-. apply Hr in Hin. discriminate Hin.
Qed.

(** X5. [validate_diagnosticos] accepts a value exactly when it is a
    non-empty list whose items are all dictionaries with a [nome] and a
    [probabilidade] that is a number between 0 and 100 (an [int] of the
    interval, a [bool], a [float] whose value lies in it) or a NaN, which
    passes both comparisons; it gives a message exactly when it rejects. *)
Theorem validate_diagnosticos_accepts (diagnosticos : json) :
  (fst (validate_diagnosticos diagnosticos) = true
   <-> exists l, diagnosticos = JArr l /\ l <> [] /\ Forall valid_diagnosis l)
  /\ (fst (validate_diagnosticos diagnosticos) = true
      <-> snd (validate_diagnosticos diagnosticos) = None).
Proof.
  assert (Hloop : forall l idx,
             fst (validate_diagnosticos_loop idx l) = true
             <-> snd (validate_diagnosticos_loop idx l) = None).
  { induction l as [|diag l IH]; intros idx; cbn [validate_diagnosticos_loop];
      [easy|].
    destruct diag as [| | | | | |fields]; cbn [fst snd]; try easy.
    destruct (dict_get (py "nome") fields); cbn [fst snd]; [|easy].
    destruct (dict_get (py "probabilidade") fields) as [prob|]; cbn [fst snd];
      [|easy].
    destruct (out_of_range prob) as [[|]|]; cbn [fst snd];
      first [apply IH | easy]. }
  unfold validate_diagnosticos.
  destruct diagnosticos as [| | | | |l|]; cbn [truthy negb fst snd];
    try (split; [split; [discriminate | intros (l0 & E & _); discriminate E]
                | easy]);
    try (match goal with
         | |- context [if ?b then _ else _] => destruct b
         end; cbn [fst snd];
         (split; [split; [discriminate | intros (l0 & E & _); discriminate E]
                 | easy])).
  destruct l as [|diag l]; cbn [negb fst snd].
  - split; [|easy]. split; [discriminate|]. intros (l0 & E & Hne & _).
    injection E as <-. now destruct Hne.
  - split; [|apply Hloop]. rewrite validate_loop_valid. split.
    + intros H. now exists (diag :: l).
    + intros (l0 & E & _ & H). now injection E as <-.
Qed.

(** X6. The five-item cap of [analyze_case] keeps a list valid: when
    [validate_diagnosticos] accepts a list it accepts its first five
    items. *)
Theorem validate_diagnosticos_capped (l : list json) :
  fst (validate_diagnosticos (JArr l)) = true ->
  fst (validate_diagnosticos (JArr (take 5 l))) = true.
Proof.
  unfold validate_diagnosticos.
  destruct l as [|diag l]; cbn [truthy negb take fst]; [discriminate|].
  rewrite !validate_loop_valid. intros H.
  inversion H as [|? ? Hd Hl]. constructor; [exact Hd | now apply Forall_take].
Qed.

Lemma validate_diagnosticos_capped_witness :
  fst (validate_diagnosticos
         (JArr (take 5 (replicate 7
                  (JObj [ (py "nome", JStr (py "Gripe"));
                          (py "probabilidade", JInt 40) ])))))
  = true.
Proof. apply validate_diagnosticos_capped. vm_compute. reflexivity. Defined.

(** ** Error classifier and rate gate, further *)

(** X7. However long the error text, the friendly message has at most 119
    characters: a fixed message, or the 19-character prefix and at most
    100 characters of the text. *)
Theorem friendly_message_bounded (str_lower : pystr -> pystr) (error : exn) :
  (length (get_friendly_error_message str_lower error) <= 119)%nat.
Proof.
  unfold get_friendly_error_message. split_ifs;
    try (vm_compute; lia).
  rewrite length_app, length_take.
  change (length (py "❌ Erro inesperado: ")) with 19%nat. lia.
Qed.

(** X8. When [check_rate_limit_status] refuses and the clock has not gone
    back behind the last call, the number of seconds it announces is
    between 1 and 3 and is the least whole number of seconds to wait: the
    gate opens after that many seconds and not one second earlier. *)
Theorem rate_limit_remaining (now t : Z) (c : context) :
  let st := {| last_api_call := Instant t; medical_context := c |} in
  let remaining := 3 - whole_seconds (now - t) in
  0 <= now - t < 3 * micros_per_second ->
  check_rate_limit_status now st
  = ((false, Some (rate_limit_message remaining)), st)
  /\ 1 <= remaining <= 3
  /\ fst (fst (check_rate_limit_status
                 (now + remaining * micros_per_second) st)) = true
  /\ fst (fst (check_rate_limit_status
                 (now + (remaining - 1) * micros_per_second) st)) = false.
Proof.
  cbv zeta. intros [Hlo Hhi]. unfold whole_seconds.
  rewrite Z.quot_div_nonneg by (unfold micros_per_second; lia).
  set (d := now - t) in *.
  assert (Hq : 0 <= d / micros_per_second <= 2).
  { unfold micros_per_second in *. split.
    - apply Z.div_pos; lia.
    - apply Z.lt_succ_r. apply Z.div_lt_upper_bound; lia. }
  assert (Hm : 0 <= d - micros_per_second * (d / micros_per_second)
               < micros_per_second).
  { pose proof (Z.mod_pos_bound d micros_per_second
                  ltac:(unfold micros_per_second; lia)) as Hb.
    rewrite Z.mod_eq in Hb by (unfold micros_per_second; lia). exact Hb. }
  unfold check_rate_limit_status. cbn [last_api_call].
  fold d. unfold whole_seconds.
  rewrite Z.quot_div_nonneg by (unfold micros_per_second; lia).
  split; [|split; [lia|split]].
  - destruct (Z.ltb_spec d (3 * micros_per_second)); [reflexivity | lia].
  - destruct (Z.ltb_spec (now + (3 - d / micros_per_second) * micros_per_second - t)
                (3 * micros_per_second)); [|reflexivity].
    unfold d in *. lia.
  - destruct (Z.ltb_spec (now + (3 - d / micros_per_second - 1) * micros_per_second - t)
                (3 * micros_per_second)); [reflexivity|].
    unfold d in *. lia.
Qed.

Lemma rate_limit_remaining_witness :
  check_rate_limit_status 1200000
    {| last_api_call := Instant 0;
       medical_context := _create_empty_context [] |}
  = ((false, Some (rate_limit_message 2)),
     {| last_api_call := Instant 0;
        medical_context := _create_empty_context [] |}).
Proof.
  apply (rate_limit_remaining 1200000 0 (_create_empty_context [])).
  unfold micros_per_second. lia.
Defined.

(** ** Context accumulator, further *)

Lemma count_get_set (k k' : pystr) (v : Z) (d : list (pystr * Z)) :
  count_get k' (count_set k v d)
  = if str_eqb k' k then Some v else count_get k' d.
Proof.
  induction d as [|[k0 v0] d IH]; cbn [count_set count_get].
  - reflexivity.
  - destruct (str_eqb k k0) eqn:E; cbn [count_get].
    + apply str_eqb_eq in E. subst k0.
      now destruct (str_eqb k' k).
    + rewrite IH. destruct (str_eqb k' k0) eqn:E0; [|reflexivity].
      apply str_eqb_eq in E0. subst k0.
      destruct (str_eqb k' k) eqn:E1; [|reflexivity].
      apply str_eqb_eq in E1. subst k'. rewrite str_eqb_refl in E. discriminate.
Qed.

Lemma count_total_set (k : pystr) (v : Z) (d : list (pystr * Z)) :
  count_total (count_set k v d)
  = count_total d
    - match count_get k d with Some n => n | None => 0 end + v.
Proof.
  unfold count_total.
  induction d as [|[k0 v0] d IH]; cbn [count_set count_get map snd fold_right].
  - lia.
  - destruct (str_eqb k k0); cbn [map snd fold_right]; [lia|]. rewrite IH. lia.
Qed.

Lemma count_tipos_get (t : pystr) (es : list entry) :
  forall acc,
    count_get t (count_tipos acc es)
    = let n := Z.of_nat (length (List.filter (fun e => str_eqb (tipo e) t) es)) in
      match count_get t acc with
      | Some v => Some (v + n)
      | None => if n =? 0 then None else Some n
      end.
Proof.
  induction es as [|e es IH]; intros acc; cbn [count_tipos List.filter].
  - cbn. destruct (count_get t acc); [f_equal; lia | reflexivity].
  - rewrite IH, count_get_set. cbv zeta.
    destruct (str_eqb (tipo e) t) eqn:E.
    + apply str_eqb_eq in E. subst t. rewrite str_eqb_refl.
      cbn [length]. rewrite Nat2Z.inj_succ.
      destruct (count_get (tipo e) acc) as [v|].
      * f_equal. lia.
      * destruct (Z.eqb_spec (Z.succ (Z.of_nat (length
                    (List.filter (fun e0 => str_eqb (tipo e0) (tipo e)) es)))) 0);
          [lia | f_equal; lia].
    + assert (E' : str_eqb t (tipo e) = false).
      { destruct (str_eqb t (tipo e)) eqn:E'; [|reflexivity].
        apply str_eqb_eq in E'. subst t. rewrite str_eqb_refl in E.
        discriminate. }
      now rewrite E'.
Qed.

Lemma count_tipos_total (es : list entry) :
  forall acc,
    count_total (count_tipos acc es) = count_total acc + Z.of_nat (length es).
Proof.
  induction es as [|e es IH]; intros acc; cbn [count_tipos length].
  - lia.
  - rewrite IH, count_total_set. destruct (count_get (tipo e) acc); lia.
Qed.

(** X9. In the summary of a context the count stored for a type is the
    number of entries [get_entries_by_type] returns for it, a type with no
    entry having no count; the counts add up to [total_entradas], which is
    the number of entries. *)
Theorem get_summary_counts (st : session_state) :
  (forall t,
      count_get t (tipos_distribuicao (get_summary st))
      = match get_entries_by_type t st with
        | [] => None
        | es => Some (Z.of_nat (length es))
        end)
  /\ count_total (tipos_distribuicao (get_summary st))
     = total_entradas (get_summary st)
  /\ total_entradas (get_summary st) = Z.of_nat (length (get_entries st)).
Proof.
  split; [|split; [|reflexivity]].
  - intros t. unfold get_summary, get_entries_by_type.
    cbn [tipos_distribuicao]. rewrite count_tipos_get. cbn [count_get].
    destruct (List.filter _ _); [reflexivity|]. cbv zeta.
    destruct (Z.eqb_spec (Z.of_nat (length (e :: l))) 0) as [E|E];
      [cbn [length] in E; lia | reflexivity].
  - unfold get_summary. cbn [tipos_distribuicao total_entradas].
    rewrite count_tipos_total. reflexivity.
Qed.

(** X10. Adding a non-blank text of a type appends one entry to the
    entries of that type and leaves the entries of every other type as they
    were; a blank text changes no type's entries. *)
Theorem add_information_by_type (texto tipo0 now_iso t : pystr)
    (st : session_state) :
  get_entries_by_type t (add_information texto tipo0 now_iso st)
  = get_entries_by_type t st
    ++ match strip texto with
       | [] => []
       | _ :: _ =>
           if str_eqb tipo0 t
           then [ {| entry_timestamp := now_iso; tipo := tipo0;
                     conteudo := strip texto |} ]
           else []
       end.
Proof.
  destruct (strip texto) as [|c r] eqn:E.
  - rewrite add_information_blank by exact E. now rewrite app_nil_r.
  - rewrite add_information_entries by congruence.
    unfold get_entries_by_type.
    cbn [set_medical_context medical_context entries].
    rewrite List.filter_app. cbn [List.filter tipo]. rewrite E.
    now destruct (str_eqb tipo0 t).
Qed.

Lemma add_all_contents (calls : list (pystr * pystr * pystr)) :
  forall st,
    map conteudo (get_entries (add_all calls st))
    = map conteudo (get_entries st) ++ kept_texts calls.
Proof.
  unfold add_all, kept_texts.
  induction calls as [|[[texto tipo0] now_iso] calls IH]; intros st;
    cbn [fold_left map List.filter fst snd].
  - now rewrite app_nil_r.
  - rewrite IH. destruct (strip texto) as [|c r] eqn:E.
    + rewrite add_information_blank by exact E. reflexivity.
    + rewrite add_information_entries by congruence.
      unfold get_entries at 1.
      cbn [set_medical_context medical_context entries str_not negb].
      rewrite map_app. cbn [map conteudo]. rewrite E, <- app_assoc.
      reflexivity.
Qed.

Lemma add_all_last_api_call (calls : list (pystr * pystr * pystr)) :
  forall st, last_api_call (add_all calls st) = last_api_call st.
Proof.
  unfold add_all.
  induction calls as [|call calls IH]; intros st; cbn [fold_left];
    [reflexivity|].
  rewrite IH. unfold add_information.
  now destruct (str_not _ || str_not _).
Qed.

(** X11. After [clear_context], whatever was there before, a series of
    [add_information] calls leaves as context text exactly the trimmed
    texts of the calls, blank ones left out, in call order and joined by
    blank lines; the context has entries exactly when one of the texts was
    not blank, and the last-call value is untouched throughout. *)
Theorem cleared_then_added (calls : list (pystr * pystr * pystr))
    (now_iso : pystr) (st : session_state) :
  let st' := add_all calls (clear_context now_iso st) in
  render_full_text st' = join blank_line (kept_texts calls)
  /\ (has_entries st' = true <-> kept_texts calls <> [])
  /\ last_api_call st' = last_api_call st.
Proof.
  cbv zeta. split; [|split].
  - unfold render_full_text. cbv zeta. now rewrite add_all_contents.
  - pose proof (add_all_contents calls (clear_context now_iso st)) as H.
    cbn [clear_context get_entries set_medical_context medical_context
           _create_empty_context entries map app] in H.
    unfold has_entries. rewrite <- H. unfold get_entries.
    destruct (entries (medical_context (add_all calls (clear_context now_iso st))));
      cbn [map length]; split; try easy; intros _; lia.
  - now rewrite add_all_last_api_call.
Qed.

(** ** Truncation-tolerant parser, further *)

Lemma lstrip_by_all (f : char -> bool) (s : pystr) :
  forallb f s = true -> lstrip_by f s = [].
Proof.
  induction s as [|c s IH]; cbn; [reflexivity|].
  destruct (f c); [exact IH | discriminate].
Qed.

Lemma lstrip_by_app (f : char -> bool) (a b : pystr) :
  lstrip_by f (a ++ b)
  = if forallb f a then lstrip_by f b else lstrip_by f a ++ b.
Proof.
  induction a as [|c a IH]; cbn [app forallb lstrip_by]; [reflexivity|].
  destruct (f c); cbn [andb]; [exact IH | reflexivity].
Qed.

Lemma rstrip_by_snoc (f : char -> bool) (s : pystr) (c : char) :
  rstrip_by f (s ++ [c]) = if f c then rstrip_by f s else s ++ [c].
Proof.
  unfold rstrip_by. rewrite rev_app_distr. cbn [rev app lstrip_by].
  destruct (f c); [reflexivity|].
  cbn [rev]. now rewrite rev_involutive.
Qed.

Lemma strip_between_newlines (body : pystr) :
  strip (nl ++ body ++ nl) = strip body.
Proof.
  unfold strip, nl. cbn [app lstrip_by].
  change (isspace 10%N) with true. cbn iota.
  rewrite lstrip_by_app. destruct (forallb isspace body) eqn:E.
  - rewrite (lstrip_by_all _ _ E). reflexivity.
  - rewrite rstrip_by_snoc. reflexivity.
Qed.

Lemma endswith_app (p s : pystr) : endswith p (s ++ p) = true.
Proof. unfold endswith. rewrite rev_app_distr. apply startswith_app. Qed.

Lemma strip_fenced (c : char) (mid : pystr) :
  isspace c = false ->
  strip (c :: mid ++ fence) = c :: mid ++ fence.
Proof.
  intros Hc. unfold strip. cbn [lstrip_by]. rewrite Hc.
  change (c :: mid ++ fence) with ((c :: mid) ++ fence).
  change fence with ([96; 96]%N ++ [96%N]). rewrite app_assoc.
  now rewrite rstrip_by_snoc.
Qed.

Lemma fence_removed (inner : pystr) :
  (if endswith fence (inner ++ fence)
   then take (length (inner ++ fence) - 3)%nat (inner ++ fence)
   else inner ++ fence) = inner.
Proof.
  rewrite endswith_app, length_app.
  change (length fence) with 3%nat.
  replace (length inner + 3 - 3)%nat with (length inner) by lia.
  apply take_app_length.
Qed.

Lemma clean_text_of_fenced_json (body : pystr) :
  clean_text_of (fence_json ++ nl ++ body ++ nl ++ fence) = strip body.
Proof.
  assert (Hs : strip (fence_json ++ nl ++ body ++ nl ++ fence)
               = fence_json ++ (nl ++ body ++ nl) ++ fence).
  { replace (fence_json ++ nl ++ body ++ nl ++ fence)
      with (96%N :: ([96; 96; 106; 115; 111; 110]%N ++ nl ++ body ++ nl) ++ fence)
      by (change fence_json with ([96; 96; 96; 106; 115; 111; 110]%N);
          cbn [app]; now rewrite <- !app_assoc).
    rewrite strip_fenced by reflexivity.
    change fence_json with ([96; 96; 96; 106; 115; 111; 110]%N).
    cbn [app]. now rewrite <- !app_assoc. }
  unfold clean_text_of. cbv zeta. rewrite Hs, startswith_app.
  change 7%nat with (length fence_json). rewrite drop_app_length.
  rewrite fence_removed. apply strip_between_newlines.
Qed.

Lemma clean_text_of_fenced (body : pystr) :
  clean_text_of (fence ++ nl ++ body ++ nl ++ fence) = strip body.
Proof.
  assert (Hs : strip (fence ++ nl ++ body ++ nl ++ fence)
               = fence ++ (nl ++ body ++ nl) ++ fence).
  { replace (fence ++ nl ++ body ++ nl ++ fence)
      with (96%N :: ([96; 96]%N ++ nl ++ body ++ nl) ++ fence)
      by (change fence with ([96; 96; 96]%N);
          cbn [app]; now rewrite <- !app_assoc).
    rewrite strip_fenced by reflexivity.
    change fence with ([96; 96; 96]%N).
    cbn [app]. now rewrite <- !app_assoc. }
  unfold clean_text_of. cbv zeta. rewrite Hs.
  replace (startswith (py "```json") (fence ++ (nl ++ body ++ nl) ++ fence))
    with false by reflexivity.
  change (py "```") with fence. rewrite startswith_app.
  change 3%nat with (length fence) at 1. rewrite drop_app_length.
  rewrite fence_removed. apply strip_between_newlines.
Qed.

(** X12. A response wrapped in a code fence, with or without the [json]
    tag, is cleaned to the trimmed text between the fences, so the parser
    answers on it what it answers on that text between plain fences. *)
Theorem fences_stripped (json_loads : pystr -> json + pystr) (body : pystr) :
  clean_text_of (fence_json ++ nl ++ body ++ nl ++ fence) = strip body
  /\ clean_text_of (fence ++ nl ++ body ++ nl ++ fence) = strip body
  /\ _parse_json_response json_loads (fence_json ++ nl ++ body ++ nl ++ fence)
     = _parse_json_response json_loads (fence ++ nl ++ body ++ nl ++ fence).
Proof.
  split; [apply clean_text_of_fenced_json|].
  split; [apply clean_text_of_fenced|].
  unfold _parse_json_response.
  now rewrite clean_text_of_fenced_json, clean_text_of_fenced.
Qed.

Lemma count_app (c : char) (a b : pystr) :
  count c (a ++ b) = (count c a + count c b)%nat.
Proof.
  induction a as [|x a IH]; cbn [app count]; [reflexivity|].
  rewrite IH. now destruct (x =? c)%N.
Qed.

Lemma count_str_mul (c : char) (s : pystr) (n : nat) :
  count c (str_mul s n) = (n * count c s)%nat.
Proof.
  unfold str_mul. induction n as [|n IH]; cbn [replicate concat]; [reflexivity|].
  rewrite count_app, IH. lia.
Qed.

(** X13. The repair never adds or removes an opening brace or bracket, and
    it leaves as many closing ones as opening ones unless the text already
    had more closing ones: by count, the closing braces become the larger
    of the two brace counts, and likewise the brackets. *)
Theorem complete_json_balanced (clean_text : pystr) :
  let stripped := rstrip trailing_chars clean_text in
  let repaired := complete_json clean_text in
  count lbrace repaired = count lbrace stripped
  /\ count lbracket repaired = count lbracket stripped
  /\ count rbrace repaired
     = Nat.max (count lbrace stripped) (count rbrace stripped)
  /\ count rbracket repaired
     = Nat.max (count lbracket stripped) (count rbracket stripped).
Proof.
  cbv zeta. unfold complete_json.
  rewrite !count_app, !count_str_mul.
  change (count lbrace closing_brace) with 0%nat.
  change (count lbrace closing_bracket) with 0%nat.
  change (count lbracket closing_brace) with 0%nat.
  change (count lbracket closing_bracket) with 0%nat.
  change (count rbrace closing_brace) with 1%nat.
  change (count rbrace closing_bracket) with 0%nat.
  change (count rbracket closing_brace) with 0%nat.
  change (count rbracket closing_bracket) with 1%nat.
  repeat split; lia.
Qed.

(** X14. When the strict parse fails, whatever the parser still returns is
    a dictionary with a non-empty [diagnosticos], obtained by parsing the
    repaired text after a truncation message on a text with the marker;
    in every other case it returns [None]. *)
Theorem degraded_success_shape (json_loads : pystr -> json + pystr)
    (response_text error_msg : pystr) :
  json_loads (clean_text_of response_text) = inr error_msg ->
  _parse_json_response json_loads response_text = JNull
  \/ (exists fields d,
         _parse_json_response json_loads response_text = JObj fields
         /\ dict_get (py "diagnosticos") fields = Some d
         /\ truthy d = true
         /\ json_loads (complete_json (clean_text_of response_text))
            = inl (JObj fields)
         /\ truncation_signature error_msg = true
         /\ contains diagnosticos_marker (clean_text_of response_text) = true).
Proof.
  intros Hfail. unfold _parse_json_response. rewrite Hfail.
  destruct (truncation_signature error_msg); [|now left].
  destruct (contains diagnosticos_marker (clean_text_of response_text));
    [|now left].
  destruct (json_loads (complete_json (clean_text_of response_text)))
    as [partial_result|]; [|now left].
  destruct partial_result as [| | | | | |fields]; try (now left).
  cbn [recovered].
  destruct (dict_get (py "diagnosticos") fields) as [d|] eqn:G; [|now left].
  destruct (truthy d) eqn:T; [|now left].
  destruct (py_len d); [|now left].
  right. exists fields, d. repeat split; assumption || reflexivity.
Qed.

Lemma degraded_success_shape_witness :
  _parse_json_response cpython_loads truncated_in_list = JNull
  \/ (exists fields d,
         _parse_json_response cpython_loads truncated_in_list = JObj fields
         /\ dict_get (py "diagnosticos") fields = Some d
         /\ truthy d = true
         /\ cpython_loads (complete_json (clean_text_of truncated_in_list))
            = inl (JObj fields)
         /\ truncation_signature
              (py "Expecting value: line 1 column 33 (char 32)") = true
         /\ contains diagnosticos_marker (clean_text_of truncated_in_list)
            = true).
Proof.
  apply (degraded_success_shape cpython_loads truncated_in_list
           (py "Expecting value: line 1 column 33 (char 32)")).
  vm_compute. reflexivity.
Defined.

(** ** Retry loops, further *)

Lemma remote_calls_filtered (evs : list event) :
  remote_calls (calls_and_sleeps evs) = remote_calls evs.
Proof.
  unfold calls_and_sleeps.
  induction evs as [|[a|t|s] evs IH]; cbn [List.filter remote_calls];
    now rewrite ?IH.
Qed.

Lemma total_sleep_filtered (evs : list event) :
  total_sleep (calls_and_sleeps evs) = total_sleep evs.
Proof.
  unfold calls_and_sleeps.
  induction evs as [|[a|t|s] evs IH]; cbn [List.filter total_sleep];
    now rewrite ?IH.
Qed.

Lemma schedule_remote_calls (k : nat) :
  forall a, remote_calls (schedule k a) = Z.of_nat k.
Proof.
  induction k as [|[|k] IH]; intros a; [reflexivity | reflexivity |].
  change (schedule (S (S k)) a)
    with (CallRemote a :: Sleep (2 ^ a) :: schedule (S k) (a + 1)).
  cbn [remote_calls]. rewrite IH. lia.
Qed.

Lemma schedule_total_sleep (k : nat) :
  forall a, 0 <= a ->
            total_sleep (schedule (S k) a) = 2 ^ (a + Z.of_nat k) - 2 ^ a.
Proof.
  induction k as [|k IH]; intros a Ha.
  - cbn [schedule total_sleep Z.of_nat]. rewrite Z.add_0_r. lia.
  - change (schedule (S (S k)) a)
      with (CallRemote a :: Sleep (2 ^ a) :: schedule (S k) (a + 1)).
    cbn [total_sleep]. rewrite IH by lia.
    replace (a + 1 + Z.of_nat k) with (a + Z.of_nat (S k)) by lia.
    replace (a + 1) with (Z.succ a) by lia.
    rewrite Z.pow_succ_r by lia. lia.
Qed.

Section MoreRunProofs.

Variable str_lower : pystr -> pystr.
Variable json_loads : pystr -> json + pystr.
Variable not_container_msg : json -> pystr.
Variable bad_index_msg : json -> pystr.
Variable generate_content : Z -> reply.
Variable datetime_now : list event -> Z.

Abbreviation analyze :=
  (analyze_case str_lower json_loads not_container_msg bad_index_msg
     generate_content datetime_now).
Abbreviation verdict_at :=
  (analyze_verdict json_loads not_container_msg bad_index_msg generate_content).
Abbreviation analyze_loop max_retries :=
  (for_range (A := analysis)
     (fun attempt =>
        try_except
          (analyze_try json_loads not_container_msg bad_index_msg
             generate_content datetime_now max_retries attempt)
          (analyze_except str_lower max_retries attempt))
     (None, Some (py "Erro desconhecido durante análise"))).

(** X15. Whatever [max_retries] is, a run of [analyze_case] makes at most
    that many remote calls (none when it is not positive), and the time it
    sleeps is fixed by the number of calls it made: nothing for at most
    one call, [2 ^ (calls - 1) - 1] seconds otherwise. *)
Theorem analyze_case_budget (model : bool) (context specialty : pystr)
    (max_retries : Z) (w : world) :
  exists new,
    trace (snd (analyze model context specialty max_retries w)) = trace w ++ new
    /\ 0 <= remote_calls new <= Z.max 0 max_retries
    /\ total_sleep new
       = if remote_calls new =? 0 then 0 else 2 ^ (remote_calls new - 1) - 1.
Proof.
  assert (Hnone : exists new : list event,
             trace w = trace w ++ new
             /\ 0 <= remote_calls new <= Z.max 0 max_retries
             /\ total_sleep new
                = if remote_calls new =? 0 then 0
                  else 2 ^ (remote_calls new - 1) - 1).
  { exists []. rewrite app_nil_r. cbn. split; [reflexivity|]. split; lia. }
  unfold analyze_case.
  destruct (negb model); [exact Hnone|].
  destruct (str_not context || str_not (strip context)); [exact Hnone|].
  destruct (Z.le_gt_cases max_retries 0) as [Hle|Hgt].
  { replace (Z.to_nat max_retries) with O by lia. exact Hnone. }
  destruct (analyze_loop_schedule str_lower json_loads not_container_msg
              bad_index_msg generate_content datetime_now max_retries
              (Z.to_nat max_retries) 0 w ltac:(lia))
    as (r & w' & new & k & E & T & C & Hk & Hpos & _).
  exists new. split.
  { exact (@eq_ind_r _ (Returned r, w')
             (fun x => trace (snd x) = trace w ++ new) T _ E). }
  rewrite <- (remote_calls_filtered new), <- (total_sleep_filtered new), C.
  rewrite schedule_remote_calls. split; [lia|].
  destruct k as [|k]; [reflexivity|].
  rewrite schedule_total_sleep by lia.
  destruct (Z.eqb_spec (Z.of_nat (S k)) 0) as [H0|_]; [lia|].
  replace (Z.of_nat (S k) - 1) with (0 + Z.of_nat k) by lia.
  reflexivity.
Qed.

Lemma first_success_loop (max_retries j : Z) (v : json) :
  verdict_at j = Succeeded v ->
  j < max_retries ->
  forall (fuel : nat) (a : Z) (w : world),
    a <= j ->
    Z.of_nat fuel = max_retries - a ->
    (forall b, a <= b < j -> failed (verdict_at b) = true) ->
    exists w' new,
      analyze_loop max_retries fuel a w = (Returned (Some v, None), w')
      /\ trace w' = trace w ++ new
      /\ calls_and_sleeps new = schedule (S (Z.to_nat (j - a))) a.
Proof.
  intros Hv Hj. induction fuel as [|fuel IH]; intros a w Ha Hfuel Hfail;
    [lia|].
  rewrite for_range_step, analyze_attempt_spec.
  destruct (Z.eq_dec a j) as [->|Hne].
  - rewrite Hv.
    destruct (attempted_events generate_content datetime_now j None w)
      as (new & T & C).
    eexists _, new. split; [reflexivity|]. split; [exact T|].
    rewrite C. now replace (j - j) with 0 by lia.
  - assert (Hlt : (a <? max_retries - 1) = true) by (apply Z.ltb_lt; lia).
    pose proof (Hfail a ltac:(lia)) as Hf.
    destruct (IH (a + 1)
                (after_attempt generate_content datetime_now a (Some (2 ^ a)) w)
                ltac:(lia) ltac:(lia) ltac:(intros b Hb; apply Hfail; lia))
      as (w' & new' & E & T' & C').
    destruct (attempted_events generate_content datetime_now a (Some (2 ^ a)) w)
      as (new & T & C).
    assert (Hsched : calls_and_sleeps (new ++ new')
                     = schedule (S (Z.to_nat (j - a))) a).
    { unfold calls_and_sleeps in *. rewrite List.filter_app, C, C'.
      replace (Z.to_nat (j - a)) with (S (Z.to_nat (j - (a + 1)))) by lia.
      rewrite (schedule_cons (S (Z.to_nat (j - (a + 1))))) by lia.
      reflexivity. }
    destruct (verdict_at a) as [v0| |e]; [discriminate Hf| |];
      rewrite Hlt; exists w', (new ++ new');
      (split; [exact E|]); (split; [now rewrite T', T, app_assoc | exact Hsched]).
Qed.

(** X16. The first attempt that succeeds decides the run: when the
    attempts before attempt [j] fail and attempt [j], one of the
    [max_retries], succeeds with [v], [analyze_case] returns [v] with no
    error after exactly [j + 1] calls, the sleeps of the schedule between
    them. *)
Theorem first_success_wins (context specialty : pystr) (max_retries j : Z)
    (v : json) (w : world) :
  str_not context || str_not (strip context) = false ->
  0 <= j < max_retries ->
  (forall b, 0 <= b < j -> failed (verdict_at b) = true) ->
  verdict_at j = Succeeded v ->
  exists new,
    fst (analyze true context specialty max_retries w)
    = Returned (Some v, None)
    /\ trace (snd (analyze true context specialty max_retries w))
       = trace w ++ new
    /\ calls_and_sleeps new = schedule (S (Z.to_nat j)) 0.
Proof.
  intros Hctx [Hj0 Hj] Hfail Hv. unfold analyze_case. cbn [negb]. rewrite Hctx.
  destruct (first_success_loop max_retries j v Hv Hj (Z.to_nat max_retries) 0 w
              Hj0 ltac:(lia) Hfail) as (w' & new & E & T & C).
  exists new.
  split; [exact (@eq_ind_r _ (Returned (Some v, None), w')
                   (fun x => fst x = Returned (Some v, None)) eq_refl _ E)|].
  split; [exact (@eq_ind_r _ (Returned (Some v, None), w')
                   (fun x => trace (snd x) = trace w ++ new) T _ E)|].
  now rewrite Z.sub_0_r in C.
Qed.

End MoreRunProofs.

Lemma first_success_wins_witness :
  exists new,
    fst (analyze_case ascii_lower cpython_loads type_error_text type_error_text
           (fun a => if a =? 0 then Raises quota_error
                     else Responds (Some six_items_text))
           ticking_clock true (py "febre e tosse") (py "Pneumologia") 3
           empty_world)
    = Returned
        (Some (JObj [ (py "diagnosticos",
                       JArr [ JInt 1; JInt 2; JInt 3; JInt 4; JInt 5 ]) ]),
         None)
    /\ trace (snd (analyze_case ascii_lower cpython_loads type_error_text
                    type_error_text
                    (fun a => if a =? 0 then Raises quota_error
                              else Responds (Some six_items_text))
                    ticking_clock true (py "febre e tosse") (py "Pneumologia")
                    3 empty_world))
       = trace empty_world ++ new
    /\ calls_and_sleeps new = schedule 2 0.
Proof.
  apply (first_success_wins ascii_lower cpython_loads type_error_text
           type_error_text
           (fun a => if a =? 0 then Raises quota_error
                     else Responds (Some six_items_text))
           ticking_clock (py "febre e tosse") (py "Pneumologia") 3 1
           (JObj [ (py "diagnosticos",
                    JArr [ JInt 1; JInt 2; JInt 3; JInt 4; JInt 5 ]) ])
           empty_world).
  - reflexivity.
  - lia.
  - intros b Hb. replace b with 0 by lia. reflexivity.
  - vm_compute. reflexivity.
Defined.

Lemma remote_calls_app (l1 l2 : list event) :
  remote_calls (l1 ++ l2) = remote_calls l1 + remote_calls l2.
Proof.
  induction l1 as [|[a|t|s] l1 IH]; cbn [app remote_calls]; lia.
Qed.

Lemma remote_calls_nonneg (evs : list event) : 0 <= remote_calls evs.
Proof. induction evs as [|[a|t|s] evs IH]; cbn [remote_calls]; lia. Qed.

Lemma sleeps_last_app (secs : Z) (l1 l2 : list event) :
  sleeps_last secs l1 -> sleeps_last secs l2 -> sleeps_last secs (l1 ++ l2).
Proof.
  intros H1 H2 s Hin. apply in_app_or in Hin. destruct Hin; auto.
Qed.

Lemma sleeps_last_filtered (secs : Z) (evs : list event) :
  sleeps_last secs (calls_and_sleeps evs) -> sleeps_last secs evs.
Proof.
  intros H s Hin. apply H. unfold calls_and_sleeps.
  apply List.filter_In. now split.
Qed.

Section PacedProofs.

Variable str_lower : pystr -> pystr.
Variable json_loads : pystr -> json + pystr.
Variable not_container_msg : json -> pystr.
Variable bad_index_msg : json -> pystr.
Variable generate_content : Z -> reply.
Variable datetime_now : list event -> Z.

Lemma paced_attempt (a : Z) (slept : option Z) (secs : Z) (w : world) :
  (forall s, slept = Some s -> s = secs) ->
  exists new,
    trace (after_attempt generate_content datetime_now a slept w)
    = trace w ++ new
    /\ remote_calls new = 1
    /\ sleeps_last secs new.
Proof.
  intros Hs.
  destruct (attempted_events generate_content datetime_now a slept w)
    as (new & T & C).
  exists new. split; [exact T|]. split.
  - rewrite <- remote_calls_filtered, C. now destruct slept.
  - apply sleeps_last_filtered. rewrite C. intros s Hin.
    destruct slept as [s0|]; cbn in Hin.
    + destruct Hin as [H|[H|[]]]; [discriminate H|].
      injection H as <-. now apply Hs.
    + destruct Hin as [H|[]]. discriminate H.
Qed.

Lemma paced_loop {A : Type} (secs : Z) (Q : A -> Prop)
    (body : Z -> world -> outcome (control A) * world) (after : A) :
  paced generate_content datetime_now secs Q body ->
  Q after ->
  forall fuel a w, exists r w' new,
    for_range body after fuel a w = (Returned r, w')
    /\ trace w' = trace w ++ new
    /\ 0 <= remote_calls new <= Z.of_nat fuel
    /\ sleeps_last secs new
    /\ Q r.
Proof.
  intros Hbody Hafter. induction fuel as [|fuel IH]; intros a w.
  - exists after, w, []. cbn [for_range remote_calls]. rewrite app_nil_r.
    repeat split; try lia; [|exact Hafter]. intros s [].
  - rewrite for_range_step.
    destruct (Hbody a w) as (ctl & slept & -> & Hs & Hq).
    destruct (paced_attempt a slept secs w Hs) as (new & T & C & S1).
    destruct ctl as [r|].
    + exists r, (after_attempt generate_content datetime_now a slept w), new.
      split; [reflexivity|]. split; [exact T|]. split; [lia|].
      split; [exact S1|]. now apply Hq.
    + destruct (IH (a + 1)
                  (after_attempt generate_content datetime_now a slept w))
        as (r & w' & new' & E & T' & C' & S' & Q').
      exists r, w', (new ++ new'). split; [exact E|].
      split; [now rewrite T', T, app_assoc|].
      rewrite remote_calls_app. split; [lia|].
      split; [now apply sleeps_last_app | exact Q'].
Qed.

Lemma paced_run_loop {A : Type} (Q : A -> Prop)
    (body : Z -> world -> outcome (control A) * world) (after : A)
    (max_retries : Z) (w : world) :
  paced generate_content datetime_now 1 Q body ->
  Q after ->
  paced_run max_retries Q w (for_range body after (Z.to_nat max_retries) 0 w).
Proof.
  intros Hbody Hafter.
  destruct (paced_loop 1 Q body after Hbody Hafter (Z.to_nat max_retries) 0 w)
    as (r & w' & new & E & T & C & S1 & HQ).
  exists r, new.
  split; [exact (@eq_ind_r _ (Returned r, w')
                   (fun x => fst x = Returned r) eq_refl _ E)|].
  split; [exact (@eq_ind_r _ (Returned r, w')
                   (fun x => trace (snd x) = trace w ++ new) T _ E)|].
  split; [lia|]. split; [exact S1 | exact HQ].
Qed.

Lemma paced_run_still {A : Type} (Q : A -> Prop) (max_retries : Z)
    (w : world) (r : A) :
  Q r -> paced_run max_retries Q w (Returned r, w).
Proof.
  intros HQ. exists r, []. cbn [fst snd remote_calls]. rewrite app_nil_r.
  repeat split; try lia; [|exact HQ]. intros s [].
Qed.

Lemma validated_suggestions (result : json) :
  _validate_suggestions_structure not_container_msg bad_index_msg result
  = Returned true ->
  exists fields,
    result = JObj fields /\ forallb (is_list_at fields) required_keys = true.
Proof.
  destruct result as [|b|n|f|s|l|fields]; cbn [_validate_suggestions_structure];
    try discriminate.
  - destruct (forallb _ _); discriminate.
  - destruct (forallb _ _); discriminate.
  - intros H. exists fields. split; [reflexivity|].
    destruct (forallb (is_list_at fields) required_keys); [reflexivity|].
    rewrite andb_false_r in H. discriminate H.
Qed.

Lemma suggestions_paced (max_retries : Z) :
  paced generate_content datetime_now 1 suggestions_shape
    (fun attempt =>
       try_except
         (suggestions_try json_loads not_container_msg bad_index_msg
            generate_content datetime_now max_retries attempt)
         (suggestions_except max_retries attempt)).
Proof.
  assert (Hnone : forall r : option json, Return None = Return r ->
                                          suggestions_shape r).
  { intros r E. injection E as <-. intros v H. discriminate H. }
  assert (Hcont : forall r : option json, Continue = Return r ->
                                          suggestions_shape r).
  { intros r E. discriminate E. }
  assert (H1 : forall s : Z, Some 1 = Some s -> s = 1).
  { intros s E. now injection E as <-. }
  assert (H0 : forall s : Z, None = Some s -> s = 1).
  { intros s E. discriminate E. }
  intros a w.
  unfold try_except, suggestions_try, suggestions_except, call_remote,
    after_attempt.
  destruct (generate_content a) as [e|[[|c t]|]].
  - destruct (a <? max_retries - 1);
      [exists Continue, (Some 1) | exists (Return None), None];
      (split; [reflexivity|]); split; assumption.
  - exists Continue, None. split; [reflexivity|]. split; assumption.
  - destruct (truthy (_parse_json_response json_loads (c :: t))).
    + destruct (_validate_suggestions_structure not_container_msg
                  bad_index_msg (_parse_json_response json_loads (c :: t)))
        as [[|]|e] eqn:V.
      * eexists (Return _), None. split; [reflexivity|].
        split; [assumption|]. intros r E. injection E as <-.
        intros v Hv. injection Hv as <-. exact (validated_suggestions _ V).
      * destruct (a <? max_retries - 1);
          [exists Continue, (Some 1) | exists Continue, None];
          (split; [reflexivity|]); split; assumption.
      * destruct (a <? max_retries - 1);
          [exists Continue, (Some 1) | exists (Return None), None];
          (split; [reflexivity|]); split; assumption.
    + destruct (a <? max_retries - 1);
        [exists Continue, (Some 1) | exists Continue, None];
        (split; [reflexivity|]); split; assumption.
  - exists Continue, None. split; [reflexivity|]. split; assumption.
Qed.

Lemma record_paced (max_retries : Z) :
  paced generate_content datetime_now 1 (record_shape generate_content)
    (fun attempt =>
       try_except
         (record_try generate_content datetime_now max_retries attempt)
         (record_except str_lower max_retries attempt)).
Proof.
  assert (Hcont : forall r : medical_record,
             Continue = Return r -> record_shape generate_content r).
  { intros r E. discriminate E. }
  assert (Hmsg : forall msg : pystr,
             msg <> [] ->
             forall r : medical_record,
               Return (None, Some msg) = Return r ->
               record_shape generate_content r).
  { intros msg Hne r E. injection E as <-. right. now exists msg. }
  assert (H1 : forall s : Z, Some 1 = Some s -> s = 1).
  { intros s E. now injection E as <-. }
  assert (H0 : forall s : Z, None = Some s -> s = 1).
  { intros s E. discriminate E. }
  assert (Hempty : py "Resposta vazia do modelo" <> []).
  { intros H; vm_compute in H; discriminate H. }
  intros a w.
  unfold try_except, record_try, record_except, call_remote, after_attempt.
  destruct (generate_content a) as [e|[[|c t]|]] eqn:G.
  - destruct (a <? max_retries - 1);
      [exists Continue, (Some 1) | eexists (Return _), None];
      (split; [reflexivity|]); (split; [assumption|]); [assumption|].
    apply Hmsg. apply get_friendly_error_message_nonempty.
  - destruct (a <? max_retries - 1);
      [exists Continue, (Some 1) | eexists (Return _), None];
      (split; [reflexivity|]); (split; [assumption|]); [assumption|].
    now apply Hmsg.
  - eexists (Return _), None. split; [reflexivity|]. split; [assumption|].
    intros r E. injection E as <-. left. exists a, (c :: t).
    split; [exact G|]. split; [discriminate | reflexivity].
  - destruct (a <? max_retries - 1);
      [exists Continue, (Some 1) | eexists (Return _), None];
      (split; [reflexivity|]); (split; [assumption|]); [assumption|].
    now apply Hmsg.
Qed.

(** X17. [generate_suggestions] never raises, whatever the setup, the
    remote model and the parser do: it returns after at most
    [max_retries] remote calls, every sleep between them lasting one
    second, and what it returns is nothing or an object whose three
    required fields are lists. *)
Theorem generate_suggestions_run (setup : outcome unit) (max_retries : Z)
    (w : world) :
  paced_run max_retries suggestions_shape w
    (generate_suggestions json_loads not_container_msg bad_index_msg
       generate_content datetime_now setup max_retries w).
Proof.
  assert (Hnone : suggestions_shape None).
  { intros v H. discriminate H. }
  unfold generate_suggestions.
  destruct setup as [u|e].
  - pose proof (paced_run_loop suggestions_shape _ None max_retries w
                  (suggestions_paced max_retries) Hnone) as H.
    destruct H as (r & new & E & T & C & S1 & HQ).
    exists r, new. unfold try_except.
    destruct (for_range _ None (Z.to_nat max_retries) 0 w) as [[r0|e0] w0];
      cbn [fst snd] in *; [|discriminate E].
    repeat split; try assumption; lia.
  - unfold try_except. now apply paced_run_still.
Qed.

(** X18. The two record generators end alike.  When the model is set
    and the formatting of the diagnoses raised, that exception leaves the
    function before any call.  In every other case the generator returns
    after at most [max_retries] remote calls, every sleep lasting one
    second, and what it returns is either the trimmed text of a non-empty
    reply with no error or no record with a non-empty error message. *)
Theorem record_generators_run (model : bool) (prompt : outcome unit)
    (max_retries : Z) (w : world) :
  record_run generate_content model prompt max_retries w
    (generate_traditional_record str_lower generate_content datetime_now
       model prompt max_retries w)
  /\ record_run generate_content model prompt max_retries w
       (generate_soap_record str_lower generate_content datetime_now
          model prompt max_retries w).
Proof.
  assert (Hunset : record_shape generate_content
                     (None, Some (py "Modelo Gemini não configurado"))).
  { right. eexists. split; [|reflexivity].
    intros H; vm_compute in H; discriminate H. }
  assert (Hafter : record_shape generate_content
                     (None, Some (py "Erro desconhecido"))).
  { right. eexists. split; [|reflexivity].
    intros H; vm_compute in H; discriminate H. }
  assert (Hloop : paced_run max_retries (record_shape generate_content) w
                    (for_range
                       (fun attempt =>
                          try_except
                            (record_try generate_content datetime_now
                               max_retries attempt)
                            (record_except str_lower max_retries attempt))
                       (None, Some (py "Erro desconhecido"))
                       (Z.to_nat max_retries) 0 w)).
  { exact (paced_run_loop _ _ _ max_retries w (record_paced max_retries)
             Hafter). }
  unfold record_run, generate_traditional_record, generate_soap_record.
  split; destruct prompt as [u|e], model; cbn [negb];
    first [ exact Hloop | reflexivity | now apply paced_run_still ].
Qed.

(** X19. [generate_medical_record] makes at most one remote call and
    never sleeps; it raises exactly when the model is set and the
    formatting of the diagnoses raised, before any call; otherwise it
    returns nothing or the trimmed text of the non-empty reply. *)
Theorem generate_medical_record_run (model : bool) (prompt : outcome unit)
    (w : world) :
  exists new,
    trace (snd (generate_medical_record generate_content datetime_now
                  model prompt w)) = trace w ++ new
    /\ 0 <= remote_calls new <= 1
    /\ total_sleep new = 0
    /\ match fst (generate_medical_record generate_content datetime_now
                    model prompt w) with
       | Raised e => model = true /\ prompt = Raised e /\ new = []
       | Returned None => True
       | Returned (Some record) =>
           exists text,
             generate_content 0 = Responds (Some text) /\ text <> []
             /\ record = strip text
       end.
Proof.
  unfold generate_medical_record.
  destruct model; cbn [negb].
  - destruct prompt as [u|e].
    + unfold try_except, call_remote, stamp, record.
      destruct (generate_content 0) as [e|[[|c t]|]] eqn:G; cbn [fst snd trace];
        rewrite <- ?app_assoc;
        try (eexists; split; [reflexivity|]; cbn; repeat split; lia).
      eexists. split; [reflexivity|].
      cbn [app remote_calls total_sleep].
      split; [lia|]. split; [reflexivity|]. exists (c :: t).
      split; [reflexivity|]. split; [discriminate | reflexivity].
    + exists []. cbn. rewrite app_nil_r. repeat split; lia.
  - exists []. cbn. rewrite app_nil_r. repeat split; lia.
Qed.

End PacedProofs.

(** ** Validators and pipeline together *)

Lemma lstrip_by_nil (f : char -> bool) (s : pystr) :
  lstrip_by f s = [] -> Forall (fun c => f c = true) s.
Proof.
  intros E. destruct (lstrip_by_split f s) as (d & Hs & Hd).
  rewrite E, app_nil_r in Hs. rewrite Hs. exact Hd.
Qed.

Lemma blank_strip (s : pystr) :
  str_not s || str_not (strip s) = true <-> blank s.
Proof.
  unfold blank. split.
  - intros H. apply orb_true_iff in H as [H|H].
    { destruct s; [constructor | discriminate H]. }
    unfold strip, rstrip_by in H.
    destruct (rev (lstrip_by isspace (rev (lstrip_by isspace s)))) eqn:E;
      [|discriminate H].
    apply (f_equal (@rev char)) in E. rewrite rev_involutive in E.
    cbn [rev] in E. apply lstrip_by_nil in E.
    destruct (lstrip_by isspace s) as [|c r] eqn:L.
    + now apply lstrip_by_nil.
    + pose proof (lstrip_by_head isspace s c r L) as Hc.
      apply Forall_rev in E. rewrite rev_involutive in E.
      inversion E as [|? ? Hc' _]. congruence.
  - intros H. apply orb_true_iff. right.
    unfold strip. rewrite lstrip_by_all; [reflexivity|].
    apply forallb_forall. intros c Hin.
    exact (proj1 (List.Forall_forall _ _) H c Hin).
Qed.

Lemma split_from_count (s : pystr) :
  forall word,
    (2 * length (split_from word s)
     <= length s + match word with [] => 1 | _ :: _ => 2 end)%nat.
Proof.
  induction s as [|c r IH]; intros word; cbn [split_from length].
  - destruct word; cbn [length]; lia.
  - destruct (isspace c).
    + specialize (IH []). cbv iota in IH. destruct word; cbn [length]; lia.
    + specialize (IH (c :: word)). cbv iota in IH. destruct word; lia.
Qed.

Lemma last_stamp_instant (new : list event) :
  forall t0, exists t, last_stamp new (Instant t0) = Instant t.
Proof.
  unfold last_stamp.
  induction new as [|[a|t1|s] new IH]; intros t0; cbn [fold_left];
    [now exists t0 | apply IH..].
Qed.

Section TogetherProofs.

Variable isalpha : char -> bool.
Variable str_lower : pystr -> pystr.
Variable json_loads : pystr -> json + pystr.
Variable not_container_msg : json -> pystr.
Variable bad_index_msg : json -> pystr.
Variable generate_content : Z -> reply.
Variable datetime_now : list event -> Z.

Abbreviation analyze' :=
  (analyze_case str_lower json_loads not_container_msg bad_index_msg
     generate_content datetime_now).

Lemma after_attempt_trace (a : Z) (slept : option Z) (w : world) :
  exists rest,
    trace (after_attempt generate_content datetime_now a slept w)
    = trace w ++ CallRemote a :: rest.
Proof.
  unfold after_attempt, sleep, stamp, record.
  destruct (generate_content a), slept; cbn [trace];
    rewrite <- ?app_assoc; cbn [app]; eexists; reflexivity.
Qed.

Lemma loop_first_call {A : Type}
    (body : Z -> world -> outcome (control A) * world) (after : A) :
  attempt_like generate_content datetime_now body ->
  forall fuel a w, exists rest,
    trace (snd (for_range body after (S fuel) a w))
    = trace w ++ CallRemote a :: rest.
Proof.
  intros Hbody fuel a w. rewrite for_range_step.
  destruct (Hbody a w) as (ctl & slept & ->).
  destruct (after_attempt_trace a slept w) as (rest & T).
  destruct ctl as [r|]; cbn [snd]; [now exists rest|].
  destruct (for_range_attempts generate_content datetime_now body after Hbody
              fuel (a + 1)
              (after_attempt generate_content datetime_now a slept w))
    as (r & w' & E & new & T' & _).
  exists (rest ++ new).
  rewrite (@eq_ind_r _ (Returned r, w')
             (fun x => trace (snd x) = trace w' ) eq_refl _ E).
  rewrite T', T, <- app_assoc. reflexivity.
Qed.

Lemma returned_call_instant {A : Type}
    (body : Z -> world -> outcome (control A) * world) (after : A)
    (a : Z) (text : option pystr) :
  attempt_like generate_content datetime_now body ->
  generate_content a = Responds text ->
  forall fuel w, exists t,
    last_api_call (session (snd (for_range body after (S fuel) a w)))
    = Instant t.
Proof.
  intros Hbody G fuel w. rewrite for_range_step.
  destruct (Hbody a w) as (ctl & slept & ->).
  assert (H1 : exists t0,
             last_api_call
               (session (after_attempt generate_content datetime_now a slept w))
             = Instant t0).
  { unfold after_attempt, sleep, stamp, record. rewrite G.
    destruct slept; cbn; eexists; reflexivity. }
  destruct H1 as (t0 & H1).
  destruct ctl as [r|]; cbn [snd]; [now exists t0|].
  destruct (for_range_attempts generate_content datetime_now body after Hbody
              fuel (a + 1)
              (after_attempt generate_content datetime_now a slept w))
    as (r & w' & E & new & _ & _ & _ & L & _).
  destruct (last_stamp_instant new t0) as (t & Ht).
  exists t.
  rewrite (@eq_ind_r _ (Returned r, w')
             (fun x => last_api_call (session (snd x))
                       = last_api_call (session w')) eq_refl _ E).
  now rewrite L, H1.
Qed.

Lemma analyze_case_calls (context specialty : pystr) (max_retries : Z)
    (w : world) :
  str_not context || str_not (strip context) = false ->
  0 < max_retries ->
  exists rest,
    trace (snd (analyze' true context specialty max_retries w))
    = trace w ++ CallRemote 0 :: rest.
Proof.
  intros B Hm. unfold analyze_case. cbn [negb]. rewrite B.
  destruct (Z.to_nat max_retries) as [|fuel] eqn:F; [lia|].
  apply (loop_first_call (A := analysis)).
  apply analyze_attempt_like.
Qed.

(** X20. [analyze_case] leaves the world untouched, no call, no write,
    no sleep, exactly when the model is not set, the context is blank or
    [max_retries] is not positive, and then it returns no result with a
    message; in every other case the first thing it does is the remote
    call of attempt 0. *)
Theorem analyze_case_untouched (model : bool) (context specialty : pystr)
    (max_retries : Z) (w : world) :
  (snd (analyze' model context specialty max_retries w) = w
   <-> model = false \/ blank context \/ max_retries <= 0)
  /\ (snd (analyze' model context specialty max_retries w) = w ->
      exists msg,
        fst (analyze' model context specialty max_retries w)
        = Returned (None, Some msg))
  /\ (snd (analyze' model context specialty max_retries w) <> w ->
      exists rest,
        trace (snd (analyze' model context specialty max_retries w))
        = trace w ++ CallRemote 0 :: rest).
Proof.
  assert (Hcalls : model = true ->
                   str_not context || str_not (strip context) = false ->
                   0 < max_retries ->
                   exists rest,
                     trace (snd (analyze' model context specialty max_retries w))
                     = trace w ++ CallRemote 0 :: rest).
  { intros -> B Hm. now apply analyze_case_calls. }
  assert (Hmoved : model = true ->
                   str_not context || str_not (strip context) = false ->
                   0 < max_retries ->
                   snd (analyze' model context specialty max_retries w) <> w).
  { intros Hmod B Hm E. destruct (Hcalls Hmod B Hm) as (rest & T).
    rewrite E in T. apply (f_equal (@length event)) in T.
    rewrite length_app in T. cbn [length] in T. lia. }
  assert (Hstill : model = false \/ blank context \/ max_retries <= 0 ->
                   snd (analyze' model context specialty max_retries w) = w
                   /\ exists msg,
                       fst (analyze' model context specialty max_retries w)
                       = Returned (None, Some msg)).
  { intros H. unfold analyze_case.
    destruct model; cbn [negb]; [|split; [reflexivity | eexists; reflexivity]].
    destruct (str_not context || str_not (strip context)) eqn:B;
      [split; [reflexivity | eexists; reflexivity]|].
    destruct H as [H|[H|H]]; [discriminate H | |].
    - apply blank_strip in H. congruence.
    - replace (Z.to_nat max_retries) with O by lia.
      split; [reflexivity | eexists; reflexivity]. }
  assert (Hcases : (model = false \/ blank context \/ max_retries <= 0)
                   \/ (model = true
                       /\ str_not context || str_not (strip context) = false
                       /\ 0 < max_retries)).
  { destruct model; [|now left; left].
    destruct (str_not context || str_not (strip context)) eqn:B.
    - left; right; left. now apply blank_strip.
    - destruct (Z.le_gt_cases max_retries 0); [now left; right; right|].
      right. split; [reflexivity|]. split; [reflexivity | lia]. }
  split; [|split].
  - split; [|intros H; now apply Hstill].
    intros E. destruct Hcases as [H|(Hmod & B & Hm)]; [exact H|].
    now destruct (Hmoved Hmod B Hm).
  - intros E. destruct Hcases as [H|(Hmod & B & Hm)]; [now apply Hstill|].
    now destruct (Hmoved Hmod B Hm).
  - intros Hne. destruct Hcases as [H|(Hmod & B & Hm)];
      [now destruct (Hstill H) | now apply Hcalls].
Qed.

(** X21. After a run of [analyze_case] whose first remote call returned,
    the session holds an instant as its last call, even if the key was
    missing before; so [can_make_api_call] cannot raise any more, and both
    gates answer by the time elapsed since that instant: open from three
    seconds on, closed before. *)
Theorem gate_after_returned_call (context specialty : pystr)
    (max_retries : Z) (text : option pystr) (w : world) :
  str_not context || str_not (strip context) = false ->
  0 < max_retries ->
  generate_content 0 = Responds text ->
  exists t,
    last_api_call
      (session (snd (analyze' true context specialty max_retries w)))
    = Instant t
    /\ forall now,
        fst (can_make_api_call 3 now
               (session (snd (analyze' true context specialty max_retries w))))
        = Returned (3 * micros_per_second <=? now - t)
        /\ fst (fst (check_rate_limit_status now
                       (session
                          (snd (analyze' true context specialty max_retries w)))))
           = (3 * micros_per_second <=? now - t).
Proof.
  intros B Hm G.
  assert (H : exists t,
             last_api_call
               (session (snd (analyze' true context specialty max_retries w)))
             = Instant t).
  { unfold analyze_case. cbn [negb]. rewrite B.
    destruct (Z.to_nat max_retries) as [|fuel] eqn:F; [lia|].
    apply (returned_call_instant (A := analysis) _ _ 0 text);
      [apply analyze_attempt_like | exact G]. }
  destruct H as (t & Ht). exists t. split; [exact Ht|]. intros now.
  unfold can_make_api_call, check_rate_limit_status. rewrite Ht. cbn [fst].
  split; [reflexivity|].
  rewrite Z.leb_antisym.
  now destruct (now - t <? 3 * micros_per_second).
Qed.

(** X22. A context [validate_context_for_analysis] accepts comes with no
    message, is not blank, and has, once trimmed, at least [min_chars] and
    in any case at least 19 characters, whatever [min_chars] is; handed to
    [analyze_case] with a model and a positive [max_retries], it is sent
    to the remote model. *)
Theorem accepted_context_is_sent (context specialty : pystr)
    (min_chars max_retries : Z) (w : world) :
  fst (validate_context_for_analysis isalpha context min_chars) = true ->
  0 < max_retries ->
  snd (validate_context_for_analysis isalpha context min_chars) = None
  /\ str_not context || str_not (strip context) = false
  /\ min_chars <= Z.of_nat (length (strip context))
  /\ 19 <= Z.of_nat (length (strip context))
  /\ exists rest,
      trace (snd (analyze' true context specialty max_retries w))
      = trace w ++ CallRemote 0 :: rest.
Proof.
  intros H Hm. unfold validate_context_for_analysis in *.
  destruct (str_not context || str_not (strip context)) eqn:B;
    [discriminate H|].
  cbv zeta in *.
  destruct (Z.ltb_spec (Z.of_nat (length (strip context))) min_chars) as [|L];
    [discriminate H|].
  destruct (Z.ltb_spec (Z.of_nat (length (split (strip context)))) 10) as [|W];
    [discriminate H|].
  destruct (2 * Z.of_nat (length (List.filter isalpha (strip context)))
            <? min_chars); [discriminate H|].
  split; [reflexivity|]. split; [reflexivity|]. split; [lia|].
  split; [|now apply analyze_case_calls].
  pose proof (split_from_count (strip context) []) as C.
  cbv iota in C. unfold split in W. lia.
Qed.

End TogetherProofs.

Lemma gate_after_returned_call_witness :
  exists t,
    last_api_call
      (session
         (snd (analyze_case ascii_lower cpython_loads type_error_text
                 type_error_text (fun _ => Responds (Some six_items_text))
                 ticking_clock true (py "febre e tosse") (py "Pneumologia") 3
                 empty_world)))
    = Instant t
    /\ forall now,
        fst (can_make_api_call 3 now
               (session
                  (snd (analyze_case ascii_lower cpython_loads type_error_text
                          type_error_text
                          (fun _ => Responds (Some six_items_text))
                          ticking_clock true (py "febre e tosse")
                          (py "Pneumologia") 3 empty_world))))
        = Returned (3 * micros_per_second <=? now - t)
        /\ fst (fst (check_rate_limit_status now
                       (session
                          (snd (analyze_case ascii_lower cpython_loads
                                  type_error_text type_error_text
                                  (fun _ => Responds (Some six_items_text))
                                  ticking_clock true (py "febre e tosse")
                                  (py "Pneumologia") 3 empty_world)))))
           = (3 * micros_per_second <=? now - t).
Proof.
  apply (gate_after_returned_call ascii_lower cpython_loads type_error_text
           type_error_text (fun _ => Responds (Some six_items_text))
           ticking_clock (py "febre e tosse") (py "Pneumologia") 3
           (Some six_items_text) empty_world).
  - reflexivity.
  - lia.
  - reflexivity.
Defined.

Lemma accepted_context_is_sent_witness :
  snd (validate_context_for_analysis ascii_isalpha
         (py "Paciente de 54 anos com febre e tosse seca ha tres dias")
         50)
  = None
  /\ str_not (py "Paciente de 54 anos com febre e tosse seca ha tres dias")
     || str_not
          (strip (py "Paciente de 54 anos com febre e tosse seca ha tres dias"))
     = false
  /\ 50 <= Z.of_nat
             (length
                (strip
                   (py "Paciente de 54 anos com febre e tosse seca ha tres dias")))
  /\ 19 <= Z.of_nat
             (length
                (strip
                   (py "Paciente de 54 anos com febre e tosse seca ha tres dias")))
  /\ exists rest,
      trace
        (snd (analyze_case ascii_lower cpython_loads type_error_text
                type_error_text (fun _ => Responds (Some six_items_text))
                ticking_clock true
                (py "Paciente de 54 anos com febre e tosse seca ha tres dias")
                (py "Pneumologia") 3 empty_world))
      = trace empty_world ++ CallRemote 0 :: rest.
Proof.
  apply (accepted_context_is_sent ascii_isalpha ascii_lower cpython_loads
           type_error_text type_error_text
           (fun _ => Responds (Some six_items_text)) ticking_clock
           (py "Paciente de 54 anos com febre e tosse seca ha tres dias")
           (py "Pneumologia") 50 3 empty_world).
  - vm_compute. reflexivity.
  - lia.
Defined.

(** ** Validators, context and history *)

Section ValidatorProofs.

Variable isalpha : char -> bool.
Variable str_lower : pystr -> pystr.

(** X23. The three text validators never contradict themselves: each
    answers true exactly when it gives no message, a message it gives is
    never empty, and data [check_minimum_data_for_prontuario] accepts has
    at least 100 characters once trimmed. *)
Theorem validators_verdict_message (context specialty : pystr) (min_chars : Z) :
  consistent (validate_context_for_analysis isalpha context min_chars)
  /\ consistent (check_minimum_data_for_prontuario str_lower context)
  /\ consistent (validate_specialty specialty)
  /\ (fst (check_minimum_data_for_prontuario str_lower context) = true ->
      100 <= Z.of_nat (length (strip context))).
Proof.
  assert (Hno : forall msg : pystr,
             msg <> [] ->
             (fst (false, Some msg) = true <-> snd (false, Some msg) = None)
             /\ (forall m, snd (false, Some msg) = Some m -> m <> [])).
  { intros msg Hne. cbn [fst snd]. split; [split; discriminate|].
    intros m E. now injection E as <-. }
  assert (Hyes : (fst (true, @None pystr) = true
                  <-> snd (true, @None pystr) = None)
                 /\ (forall m, snd (true, @None pystr) = Some m -> m <> [])).
  { cbn [fst snd]. split; [split; reflexivity|]. discriminate. }
  unfold consistent. split; [|split; [|split]].
  - unfold validate_context_for_analysis. cbv zeta.
    repeat match goal with
           | |- context [if ?b then _ else _] => destruct b
           end;
      first [ exact Hyes
            | apply Hno; intros E; vm_compute in E; discriminate E ].
  - unfold check_minimum_data_for_prontuario. cbv zeta.
    repeat match goal with
           | |- context [if ?b then _ else _] => destruct b
           end;
      first [ exact Hyes
            | apply Hno; intros E; vm_compute in E; discriminate E ].
  - unfold validate_specialty.
    repeat match goal with
           | |- context [if ?b then _ else _] => destruct b
           end;
      first [ exact Hyes
            | apply Hno; intros E; vm_compute in E; discriminate E ].
  - unfold check_minimum_data_for_prontuario.
    destruct (str_not context); cbn [orb]; [discriminate|].
    destruct (Z.ltb_spec (Z.of_nat (length (strip context))) 100);
      [discriminate | intros _; lia].
Qed.

End ValidatorProofs.

Lemma history_of_set (h : list consultation) (st : app_state) :
  history_of (set_consultation_history h st) = h.
Proof. reflexivity. Qed.

Lemma last_ten_length (h : list consultation) :
  (length (last_ten h) = Nat.min (length h) 10)%nat.
Proof. unfold last_ten. rewrite length_drop. lia. Qed.

Ltac history_done :=
  cbn [snd]; rewrite ?history_of_set;
  cbn [consultation_history diagnosticos dados_consulta session_especialidade
         set_consultation_history];
  repeat split; first [reflexivity | lia | assumption].

(** X24. Whatever the session holds, after
    [save_consultation_to_history] the history key is there, also when the
    function raised; the history has grown by at most one entry and has at
    most ten, if it had at most ten before; the other keys are as they
    were. *)
Theorem save_consultation_bounded (now : Z) (st : app_state) :
  let st' := snd (save_consultation_to_history now st) in
  consultation_history st' = Some (history_of st')
  /\ (length (history_of st') <= S (length (history_of st)))%nat
  /\ (length (history_of st')
      <= Nat.max (length (history_of st)) 10)%nat
  /\ diagnosticos st' = diagnosticos st
  /\ dados_consulta st' = dados_consulta st
  /\ session_especialidade st' = session_especialidade st.
Proof.
  cbv zeta. unfold save_consultation_to_history. cbv zeta.
  fold (history_of st).
  cbn [diagnosticos dados_consulta session_especialidade
         set_consultation_history].
  destruct (diagnosticos st) as [[|first rest]|] eqn:D; try history_done.
  destruct (str_not (dados_consulta st)); [history_done|].
  destruct (item_nome first) as [nome|]; [|history_done].
  destruct (negb (existsb _ (history_of st))); [|history_done].
  match goal with
  | |- context [10 <? ?n] => destruct (Z.ltb_spec 10 n) as [L|L]
  end;
    cbn [snd]; rewrite ?history_of_set;
    cbn [consultation_history diagnosticos dados_consulta
           session_especialidade set_consultation_history];
    rewrite ?last_ten_length, ?length_app in *; cbn [length] in *;
    repeat split; first [reflexivity | lia | assumption].
Qed.

Lemma existsb_last_ten (p : consultation -> bool) (h : list consultation)
    (c : consultation) :
  p c = true -> existsb p (last_ten (h ++ [c])) = true.
Proof.
  intros Hc. unfold last_ten.
  rewrite drop_app_le by (rewrite length_app; cbn [length]; lia).
  rewrite existsb_app. cbn [existsb]. rewrite Hc.
  now rewrite orb_true_r.
Qed.

(** X25. When there are diagnoses whose first has a name, the case text
    is not empty and no saved consultation bears the instant [now],
    [save_consultation_to_history] returns and puts one consultation at
    the end of the history, dropping from its front what exceeds ten
    entries.  The new entry is numbered one more than the entries there
    were, so always 11 once the history is full; its preview is at most
    103 characters long. *)
Theorem save_consultation_appends (now : Z) (st : app_state)
    (first nome : json) (rest : list json) :
  diagnosticos st = Some (first :: rest) ->
  item_nome first = Some nome ->
  str_not (dados_consulta st) = false ->
  existsb (fun c => consultation_timestamp c =? now) (history_of st) = false ->
  fst (save_consultation_to_history now st) = Some tt
  /\ exists c dropped,
      history_of st ++ [c]
      = dropped ++ history_of (snd (save_consultation_to_history now st))
      /\ length (history_of (snd (save_consultation_to_history now st)))
         = Nat.min (S (length (history_of st))) 10
      /\ consultation_id c = Z.of_nat (length (history_of st)) + 1
      /\ consultation_timestamp c = now
      /\ num_diagnostics c = Z.of_nat (S (length rest))
      /\ top_diagnostic c = nome
      /\ (length (context_preview c) <= 103)%nat.
Proof.
  intros D N T E. unfold save_consultation_to_history. cbv zeta.
  fold (history_of st).
  cbn [diagnosticos dados_consulta session_especialidade
         set_consultation_history].
  rewrite D, T, N, E. cbn [negb].
  set (c := {| consultation_id := Z.of_nat (length (history_of st)) + 1;
               consultation_timestamp := now;
               consultation_specialty := session_especialidade st;
               context_preview := slice_to 100 (dados_consulta st) ++ py "...";
               num_diagnostics := Z.of_nat (length (first :: rest));
               top_diagnostic := nome |}).
  assert (Hc : consultation_id c = Z.of_nat (length (history_of st)) + 1
               /\ consultation_timestamp c = now
               /\ num_diagnostics c = Z.of_nat (S (length rest))
               /\ top_diagnostic c = nome
               /\ (length (context_preview c) <= 103)%nat).
  { repeat split. cbn [context_preview c]. rewrite length_app.
    pose proof (slice_to_length 100 (dados_consulta st) ltac:(lia)) as L.
    change (length (py "...")) with 3%nat. lia. }
  destruct (Z.ltb_spec 10 (Z.of_nat (length (history_of st ++ [c])))) as [L|L];
    (split; [reflexivity|]); cbn [snd]; rewrite history_of_set.
  - exists c, (take (length (history_of st ++ [c]) - 10) (history_of st ++ [c])).
    split; [unfold last_ten; now rewrite take_drop|].
    split; [|exact Hc].
    rewrite last_ten_length. rewrite length_app in *. cbn [length] in *. lia.
  - exists c, []. split; [reflexivity|]. split; [|exact Hc].
    rewrite length_app in *. cbn [length] in *. lia.
Qed.

Lemma save_consultation_appends_witness :
  fst (save_consultation_to_history 7
         {| consultation_history := None;
            diagnosticos := Some [ JObj [ (py "nome", JStr (py "Gripe")) ] ];
            dados_consulta := py "febre e tosse";
            session_especialidade := py "Pneumologia" |})
  = Some tt
  /\ exists c dropped,
      history_of
        {| consultation_history := None;
           diagnosticos := Some [ JObj [ (py "nome", JStr (py "Gripe")) ] ];
           dados_consulta := py "febre e tosse";
           session_especialidade := py "Pneumologia" |} ++ [c]
      = dropped
        ++ history_of
             (snd (save_consultation_to_history 7
                     {| consultation_history := None;
                        diagnosticos :=
                          Some [ JObj [ (py "nome", JStr (py "Gripe")) ] ];
                        dados_consulta := py "febre e tosse";
                        session_especialidade := py "Pneumologia" |}))
      /\ length
           (history_of
              (snd (save_consultation_to_history 7
                      {| consultation_history := None;
                         diagnosticos :=
                           Some [ JObj [ (py "nome", JStr (py "Gripe")) ] ];
                         dados_consulta := py "febre e tosse";
                         session_especialidade := py "Pneumologia" |})))
         = Nat.min
             (S (length
                   (history_of
                      {| consultation_history := None;
                         diagnosticos :=
                           Some [ JObj [ (py "nome", JStr (py "Gripe")) ] ];
                         dados_consulta := py "febre e tosse";
                         session_especialidade := py "Pneumologia" |})))
             10
      /\ consultation_id c
         = Z.of_nat
             (length
                (history_of
                   {| consultation_history := None;
                      diagnosticos :=
                        Some [ JObj [ (py "nome", JStr (py "Gripe")) ] ];
                      dados_consulta := py "febre e tosse";
                      session_especialidade := py "Pneumologia" |})) + 1
      /\ consultation_timestamp c = 7
      /\ num_diagnostics c = Z.of_nat (S (length (@nil json)))
      /\ top_diagnostic c = JStr (py "Gripe")
      /\ (length (context_preview c) <= 103)%nat.
Proof.
  apply (save_consultation_appends 7
           {| consultation_history := None;
              diagnosticos := Some [ JObj [ (py "nome", JStr (py "Gripe")) ] ];
              dados_consulta := py "febre e tosse";
              session_especialidade := py "Pneumologia" |}
           (JObj [ (py "nome", JStr (py "Gripe")) ]) (JStr (py "Gripe")) []);
    vm_compute; reflexivity.
Defined.

(** X26. Saving twice at the same instant is saving once: the second
    [save_consultation_to_history] ends as the first did and leaves the
    session as the first left it, the consultation of that instant being
    found in the history. *)
Theorem save_consultation_once (now : Z) (st : app_state) :
  save_consultation_to_history now (snd (save_consultation_to_history now st))
  = save_consultation_to_history now st.
Proof.
  unfold save_consultation_to_history at 2 3. cbv zeta.
  fold (history_of st).
  cbn [diagnosticos dados_consulta session_especialidade
         set_consultation_history].
  destruct (diagnosticos st) as [[|first rest]|] eqn:D;
    [unfold save_consultation_to_history; cbn; now rewrite D..| |
     unfold save_consultation_to_history; cbn; now rewrite D].
  destruct (str_not (dados_consulta st)) eqn:T;
    [unfold save_consultation_to_history; cbn; now rewrite D, T|].
  destruct (item_nome first) as [nome|] eqn:N;
    [|unfold save_consultation_to_history; cbn [snd]; cbv zeta;
      cbn [consultation_history diagnosticos dados_consulta
             session_especialidade set_consultation_history];
      now rewrite D, T, N].
  destruct (existsb (fun c => consultation_timestamp c =? now) (history_of st))
    eqn:E; cbn [negb].
  { unfold save_consultation_to_history; cbn [snd]; cbv zeta;
      cbn [consultation_history diagnosticos dados_consulta
             session_especialidade set_consultation_history].
    now rewrite D, T, N, E. }
  set (c := {| consultation_id := Z.of_nat (length (history_of st)) + 1;
               consultation_timestamp := now;
               consultation_specialty := session_especialidade st;
               context_preview := slice_to 100 (dados_consulta st) ++ py "...";
               num_diagnostics := Z.of_nat (length (first :: rest));
               top_diagnostic := nome |}).
  assert (Hc : (consultation_timestamp c =? now) = true)
    by apply Z.eqb_refl.
  destruct (10 <? Z.of_nat (length (history_of st ++ [c])));
    unfold save_consultation_to_history; cbn [snd]; cbv zeta;
    cbn [consultation_history diagnosticos dados_consulta
           session_especialidade set_consultation_history];
    rewrite D, T, N.
  - rewrite (existsb_last_ten _ _ c Hc). reflexivity.
  - rewrite existsb_app. cbn [existsb]. rewrite Hc, orb_true_r. reflexivity.
Qed.

Lemma valid_diagnosis_color (diag : json) :
  valid_diagnosis diag ->
  exists colour, ranking_color diag = Some colour /\ In colour ranking_colors.
Proof.
  intros (fields & nome & prob & -> & _ & P & R).
  unfold ranking_color. rewrite P. unfold ranking_colors.
  destruct prob as [|b|n|f|s|l|o]; cbn [in_range nan_probability] in R;
    try (now destruct R); cbn [get_probability_color].
  - eexists. split; [reflexivity|]. cbn [In]. auto.
  - destruct (70 <=? n); [|destruct (40 <=? n)];
      (eexists; split; [reflexivity|]); cbn [In]; auto.
  - destruct (PrimFloat.leb 70 f); [|destruct (PrimFloat.leb 40 f)];
      (eexists; split; [reflexivity|]); cbn [In]; auto.
Qed.

(** X27. What [validate_diagnosticos] accepts can be shown and saved: for
    every item of an accepted list the ranking gets one of its three
    colours without raising, and [save_consultation_to_history] on a
    session holding that list returns without raising. *)
Theorem validated_list_is_usable (l : list json) (now : Z) (st : app_state) :
  fst (validate_diagnosticos (JArr l)) = true ->
  Forall (fun diag =>
            exists colour,
              ranking_color diag = Some colour /\ In colour ranking_colors) l
  /\ (diagnosticos st = Some l ->
      fst (save_consultation_to_history now st) = Some tt).
Proof.
  unfold validate_diagnosticos.
  destruct l as [|diag l]; cbn [truthy negb fst]; [discriminate|].
  rewrite validate_loop_valid. intros H. split.
  - eapply Forall_impl; [exact H|]. intros d. apply valid_diagnosis_color.
  - intros D. inversion H as [|? ? Hd _].
    destruct Hd as (fields & nome & prob & -> & Hn & _).
    unfold save_consultation_to_history. cbv zeta.
    cbn [diagnosticos dados_consulta session_especialidade
           set_consultation_history].
    rewrite D. cbn [item_nome]. rewrite Hn.
    destruct (str_not (dados_consulta st)); [reflexivity|].
    destruct (negb _); [|reflexivity].
    now destruct (10 <? _).
Qed.

Lemma validated_list_is_usable_witness :
  Forall (fun diag =>
            exists colour,
              ranking_color diag = Some colour /\ In colour ranking_colors)
    [ JObj [ (py "nome", JStr (py "Gripe")); (py "probabilidade", JInt 40) ] ]
  /\ (diagnosticos
        {| consultation_history := None;
           diagnosticos :=
             Some [ JObj [ (py "nome", JStr (py "Gripe"));
                           (py "probabilidade", JInt 40) ] ];
           dados_consulta := py "febre e tosse";
           session_especialidade := py "Pneumologia" |}
      = Some [ JObj [ (py "nome", JStr (py "Gripe"));
                      (py "probabilidade", JInt 40) ] ] ->
      fst (save_consultation_to_history 7
             {| consultation_history := None;
                diagnosticos :=
                  Some [ JObj [ (py "nome", JStr (py "Gripe"));
                                (py "probabilidade", JInt 40) ] ];
                dados_consulta := py "febre e tosse";
                session_especialidade := py "Pneumologia" |})
      = Some tt).
Proof.
  apply (validated_list_is_usable
           [ JObj [ (py "nome", JStr (py "Gripe"));
                    (py "probabilidade", JInt 40) ] ]
           7
           {| consultation_history := None;
              diagnosticos :=
                Some [ JObj [ (py "nome", JStr (py "Gripe"));
                              (py "probabilidade", JInt 40) ] ];
              dados_consulta := py "febre e tosse";
              session_especialidade := py "Pneumologia" |}).
  vm_compute. reflexivity.
Defined.

(** ** The report of the context *)

Lemma contains_line (x line : pystr) (parts : list pystr) :
  In line parts -> contains x line = true ->
  contains x (join nl parts) = true.
Proof.
  intros Hin Hx. destruct (List.in_split _ _ Hin) as (before & after & ->).
  now apply contains_join.
Qed.

Lemma entry_lines_In (str_upper : pystr -> pystr)
    (strftime_iso : pystr -> option pystr) (e : entry) (es : list entry) :
  In e es ->
  forall idx,
    In (py "Conteúdo: " ++ conteudo e)
       (entry_lines str_upper strftime_iso idx es)
    /\ exists i,
        In (nl ++ py "[" ++ str_of_int i ++ py "] " ++ str_upper (tipo e))
           (entry_lines str_upper strftime_iso idx es).
Proof.
  induction es as [|e0 es IH]; intros Hin idx; [destruct Hin|].
  cbn [entry_lines]. destruct Hin as [->|Hin].
  - split; [do 2 right; left; reflexivity|].
    exists idx. left; reflexivity.
  - destruct (IH Hin (idx + 1)) as (H1 & i & H2).
    split; [|exists i]; apply in_or_app; right; assumption.
Qed.

(** X28. The text report of [get_full_context] loses nothing: it shows
    the specialty, the number of entries, and for every entry of the
    context its content line and its type in capitals; asked for [json],
    it is what [json.dumps] makes of the context. *)
Theorem report_shows_every_entry (str_upper : pystr -> pystr)
    (strftime_iso : pystr -> option pystr) (json_dumps : context -> pystr)
    (st : session_state) :
  let report :=
    get_full_context str_upper strftime_iso json_dumps (py "text") st in
  contains (py "Especialidade: " ++ especialidade (medical_context st)) report
  = true
  /\ contains (py "Total de entradas: "
               ++ str_of_int (Z.of_nat (length (get_entries st)))) report
     = true
  /\ Forall (fun e =>
               contains (py "Conteúdo: " ++ conteudo e) report = true
               /\ contains (str_upper (tipo e)) report = true)
       (get_entries st)
  /\ get_full_context str_upper strftime_iso json_dumps (py "json") st
     = json_dumps (medical_context st).
Proof.
  cbv zeta. unfold get_full_context, get_entries.
  replace (str_eqb (py "text") (py "json")) with false by reflexivity.
  replace (str_eqb (py "json") (py "json")) with true by reflexivity.
  cbv zeta.
  split; [|split; [|split; [|reflexivity]]].
  - eapply contains_line;
      [apply in_or_app; left; do 3 right; left; reflexivity|].
    apply contains_suffix.
  - eapply contains_line;
      [apply in_or_app; left; do 5 right; left; reflexivity|].
    apply contains_self.
  - apply List.Forall_forall. intros e Hin.
    destruct (entries (medical_context st)) as [|e1 es1] eqn:Es;
      [destruct Hin|].
    destruct (entry_lines_In str_upper strftime_iso e (e1 :: es1) Hin 1)
      as (H1 & i & H2).
    split.
    + eapply contains_line;
        [apply in_or_app; right; apply in_or_app; right; exact H1|].
      apply contains_self.
    + eapply contains_line;
        [apply in_or_app; right; apply in_or_app; right; exact H2|].
      rewrite !app_assoc. apply contains_suffix.
Qed.
